(** * HitecDServo: the register protocol of Hitec D-series servos

    A shallow embedding of [HitecDServo.h] / [HitecDServo.cpp]: the
    bit-banged, inverted-polarity serial link ([writeByte], [readByte]),
    the checksum-framed register protocol ([writeReg], [readReg]) and the
    attach / detach life cycle of the servo object.

    The code runs on an AVR microcontroller: [int] is 16 bits wide,
    [SREG] is the status register whose bit 7 is the global interrupt
    enable, and the pin is driven through memory-mapped port registers. *)

From Stdlib Require Import Ascii String.
From Stdlib Require Import ZArith List Bool Lia.
Import ListNotations.
Local Open Scope Z_scope.

(** ** Fixed-width integers *)

Definition uint8 (z : Z) : Z := z mod 256.
Definition uint16 (z : Z) : Z := z mod 65536.
(** [int] and [int16_t] on the AVR: 16 bits, two's complement. *)
Definition int16 (z : Z) : Z := (z + 32768) mod 65536 - 32768.

(** ** Result codes ([HitecDServo.h]) *)

Definition HITECD_OK : Z := 1.
Definition HITECD_ERR_NO_SERVO : Z := -1.
Definition HITECD_ERR_NO_RESISTOR : Z := -2.
Definition HITECD_ERR_CORRUPT : Z := -3.
Definition HITECD_ERR_UNSUPPORTED_MODEL : Z := -4.
Definition HITECD_ERR_NOT_ATTACHED : Z := -5.

(** ** The hardware as the code sees it *)

Inductive PinMode := INPUT | OUTPUT | INPUT_PULLUP.

(** Logic levels of [digitalRead] / [digitalWrite]. *)
Definition LOW : bool := false.
Definition HIGH : bool := true.

(** Everything the library does to the outside world, in program order. *)
Inductive Event :=
| EvCli                                   (* cli() *)
| EvSetSREG (v : Z)                       (* SREG = v *)
| EvPinMode (pin : Z) (m : PinMode)       (* pinMode(pin, m) *)
| EvDigitalWrite (pin : Z) (level : bool) (* digitalWrite(pin, level) *)
| EvDigitalRead (pin : Z) (level : bool)  (* digitalRead(pin), with its result *)
| EvStore (addr : Z) (v : Z)              (* *pinOutputRegister = v *)
| EvSample (addr : Z) (level : bool)      (* *pinInputRegister & pinBitMask, with its truth value *)
| EvDelayUs (us100 : Z) (cycles : Z)      (* DELAY_US_COMPENSATED(us100 / 100, cycles) *)
| EvDelayMs (ms : Z).                     (* delay(ms) *)

(** The world: the status register, the memory-mapped I/O registers, the
    level of the servo line at each successive observation (an oracle:
    the [n]-th time the code looks at the line it sees [line n]), the
    number of observations made so far, and the log of events. *)
Record World := mkWorld {
  SREG : Z;
  regs : Z -> Z;
  line : nat -> bool;
  now : nat;
  trace : list Event
}.

(** State-passing computations over the world. *)
Definition M (A : Type) : Type := World -> A * World.

Definition ret {A} (a : A) : M A := fun w => (a, w).
Definition bind {A B} (m : M A) (k : A -> M B) : M B :=
  fun w => let (a, w') := m w in k a w'.

Declare Scope hw_scope.
Delimit Scope hw_scope with hw.
Notation "x <- m ;; k" := (bind m (fun x => k))
  (at level 61, m at next level, right associativity) : hw_scope.
Notation "m ;; k" := (bind m (fun _ => k))
  (at level 61, right associativity) : hw_scope.
Local Open Scope hw_scope.

Definition emit (e : Event) (w : World) : World :=
  mkWorld (SREG w) (regs w) (line w) (now w) (trace w ++ [e]).

(** [SREG] reads and writes, and [cli()], which clears the I bit (bit 7). *)
Definition get_SREG : M Z := fun w => (SREG w, w).
Definition set_SREG (v : Z) : M unit := fun w =>
  (tt, mkWorld v (regs w) (line w) (now w) (trace w ++ [EvSetSREG v])).
Definition cli : M unit := fun w =>
  (tt, mkWorld (Z.land (SREG w) 127) (regs w) (line w) (now w) (trace w ++ [EvCli])).

Definition delay (ms : Z) : M unit := fun w => (tt, emit (EvDelayMs ms) w).

(** [DELAY_US_COMPENSATED(us, cycles)]: a busy wait of [us] microseconds
    less the time of [cycles] instruction cycles; [us] is kept in
    hundredths of a microsecond (8.68us is 868). *)
Definition DELAY_US_COMPENSATED (us100 cycles : Z) : M unit :=
  fun w => (tt, emit (EvDelayUs us100 cycles) w).

(** Volatile accesses through [pinOutputRegister] and [pinInputRegister]. *)
Definition load (addr : Z) : M Z := fun w => (regs w addr, w).
Definition store (addr v : Z) : M unit := fun w =>
  (tt, mkWorld (SREG w) (fun a => if a =? addr then v else regs w a)
               (line w) (now w) (trace w ++ [EvStore addr v])).

(** One look at the line. *)
Definition observe (ev : bool -> Event) : M bool := fun w =>
  let b := line w (now w) in
  (b, mkWorld (SREG w) (regs w) (line w) (S (now w)) (trace w ++ [ev b])).

(** The Arduino core is not part of the library; what the library uses of
    it is taken as a parameter: the pin tables, the effect of [pinMode]
    and [digitalWrite] on the I/O registers, and [timeout_count], the
    value of the constant expression [F_CPU * 0.004 / 15] as an [int]
    (4266 at 16 MHz). *)
Record Platform := mkPlatform {
  digitalPinToBitMask : Z -> Z;
  digitalPinToPort : Z -> Z;
  portInputRegister : Z -> Z;
  portOutputRegister : Z -> Z;
  pinMode_regs : Z -> PinMode -> (Z -> Z) -> (Z -> Z);
  digitalWrite_regs : Z -> bool -> (Z -> Z) -> (Z -> Z);
  timeout_count : Z
}.

Section Library.

Variable hw : Platform.

Definition pinMode (pin : Z) (m : PinMode) : M unit := fun w =>
  (tt, mkWorld (SREG w) (pinMode_regs hw pin m (regs w)) (line w) (now w)
               (trace w ++ [EvPinMode pin m])).

Definition digitalWrite (pin : Z) (level : bool) : M unit := fun w =>
  (tt, mkWorld (SREG w) (digitalWrite_regs hw pin level (regs w)) (line w) (now w)
               (trace w ++ [EvDigitalWrite pin level])).

Definition digitalRead (pin : Z) : M bool := observe (EvDigitalRead pin).

(** ** The servo object *)

Record HitecDServo := mkServo {
  pin : Z;
  pinBitMask : Z;
  pinInputRegister : Z;
  pinOutputRegister : Z;
  modelNumber : Z;
  rawAngleFor850 : Z;
  rawAngleFor1500 : Z;
  rawAngleFor2150 : Z
}.

(** [HitecDServo::HitecDServo() : pin(-1) { }].  The other members are
    not initialised: they keep whatever the storage [uninit] held. *)
Definition HitecDServo_new (uninit : HitecDServo) : HitecDServo :=
  mkServo (-1) (pinBitMask uninit) (pinInputRegister uninit)
          (pinOutputRegister uninit) (modelNumber uninit)
          (rawAngleFor850 uninit) (rawAngleFor1500 uninit) (rawAngleFor2150 uninit).

Definition attach (_pin : Z) (s : HitecDServo) : M HitecDServo :=
  let pin' := _pin in
  pinMode pin' OUTPUT ;;
  digitalWrite pin' LOW ;;
  let pinBitMask' := uint8 (digitalPinToBitMask hw pin') in
  let port := uint8 (digitalPinToPort hw pin') in
  ret (mkServo pin' pinBitMask' (portInputRegister hw port) (portOutputRegister hw port)
               (modelNumber s) (rawAngleFor850 s) (rawAngleFor1500 s) (rawAngleFor2150 s)).

Definition attached (s : HitecDServo) : bool := negb (pin s =? -1).

Definition detach (s : HitecDServo) : HitecDServo :=
  mkServo (-1) (pinBitMask s) (pinInputRegister s) (pinOutputRegister s)
          (modelNumber s) (rawAngleFor850 s) (rawAngleFor1500 s) (rawAngleFor2150 s).

(** ** Bit-level transport *)

(** [*pinOutputRegister |= pinBitMask] and [*pinOutputRegister &= ~pinBitMask]. *)
Definition out_set (s : HitecDServo) : M unit :=
  v <- load (pinOutputRegister s) ;;
  store (pinOutputRegister s) (uint8 (Z.lor v (pinBitMask s))).

Definition out_clear (s : HitecDServo) : M unit :=
  v <- load (pinOutputRegister s) ;;
  store (pinOutputRegister s) (uint8 (Z.land v (Z.lnot (pinBitMask s)))).

(** [*pinInputRegister & pinBitMask], as a truth value. *)
Definition pin_input (s : HitecDServo) : M bool :=
  observe (EvSample (pinInputRegister s)).

(** [for (int m = 0x001; m != 0x100; m <<= 1)] of [writeByte]. *)
Fixpoint writeByte_loop (fuel : nat) (s : HitecDServo) (val m : Z) : M unit :=
  match fuel with
  | O => ret tt
  | S fuel' =>
      if m =? 0x100 then ret tt
      else
        (if negb (Z.land val m =? 0) then out_clear s else out_set s) ;;
        DELAY_US_COMPENSATED 868 25 ;;
        writeByte_loop fuel' s val (Z.shiftl m 1)
  end.

Definition writeByte (s : HitecDServo) (val : Z) : M unit :=
  (* start bit: polarity is inverted, so the start bit is HIGH *)
  out_set s ;;
  DELAY_US_COMPENSATED 868 25 ;;
  writeByte_loop 9 s val 0x001 ;;
  (* stop bit *)
  out_clear s ;;
  DELAY_US_COMPENSATED 868 25.

(** The busy wait for the start bit in [readByte]: while the pin reads
    low, [if (--timeout_counter == 0) return HITECD_ERR_NO_SERVO].
    [true] when the start bit was seen, [false] on time-out.  The loop
    makes at most [timeout_counter] iterations, which is the fuel; a
    [timeout_counter] that is not positive, which no clock of 3750 Hz or
    more gives, is read as an immediate time-out. *)
Fixpoint wait_start (fuel : nat) (s : HitecDServo) (timeout_counter : Z) : M bool :=
  match fuel with
  | O => ret false
  | S fuel' =>
      b <- pin_input s ;;
      if b then ret true
      else
        let timeout_counter := timeout_counter - 1 in
        if timeout_counter =? 0 then ret false
        else wait_start fuel' s timeout_counter
  end.

(** [for (int m = 0x001; m != 0x100; m <<= 1)] of [readByte]. *)
Fixpoint readByte_loop (fuel : nat) (s : HitecDServo) (val m : Z) : M Z :=
  match fuel with
  | O => ret val
  | S fuel' =>
      if m =? 0x100 then ret val
      else
        b <- pin_input s ;;
        let val := if negb b then uint8 (Z.lor val m) else val in
        DELAY_US_COMPENSATED 868 19 ;;
        readByte_loop fuel' s val (Z.shiftl m 1)
  end.

Definition readByte (s : HitecDServo) : M Z :=
  started <- wait_start (Z.to_nat (timeout_count hw)) s (timeout_count hw) ;;
  if negb started then ret HITECD_ERR_NO_SERVO
  else
    (* delay until the approximate centre of the first data bit *)
    DELAY_US_COMPENSATED 1302 32 ;;
    val <- readByte_loop 9 s 0 0x001 ;;
    (* the stop bit is expected low *)
    stop <- pin_input s ;;
    if stop then ret HITECD_ERR_CORRUPT
    else ret val.

(** ** Register protocol *)

Definition writeReg (s : HitecDServo) (reg val : Z) : M unit :=
  old_sreg <- get_SREG ;;
  cli ;;
  writeByte s 0x96 ;;
  writeByte s 0x00 ;;
  writeByte s reg ;;
  writeByte s 0x02 ;;
  let low := uint8 (Z.land val 0xFF) in
  writeByte s low ;;
  let high := uint8 (Z.land (Z.shiftr val 8) 0xFF) in
  writeByte s high ;;
  let checksum := uint8 (Z.land (0x00 + reg + 0x02 + low + high) 0xFF) in
  writeByte s checksum ;;
  set_SREG old_sreg.

(** The seven results of [readByte] in [readReg], under the names of the
    source's locals. *)
Record Response := mkResponse {
  const_0x69 : Z;
  mystery : Z;
  reg2 : Z;
  const_0x02 : Z;
  low : Z;
  high : Z;
  checksum2 : Z
}.

(** [readReg], lines 112-129: the request, and the release of the line. *)
Definition readReg_request (s : HitecDServo) (reg : Z) : M unit :=
  old_sreg <- get_SREG ;;
  cli ;;
  writeByte s 0x96 ;;
  writeByte s 0x00 ;;
  writeByte s reg ;;
  writeByte s 0x00 ;;
  let checksum := uint8 (Z.land (0x00 + reg + 0x00) 0xFF) in
  writeByte s checksum ;;
  digitalWrite (pin s) LOW ;;
  set_SREG old_sreg ;;
  delay 14 ;;
  pinMode (pin s) INPUT_PULLUP.

(** [readReg], lines 139-152: the seven response bytes. *)
Definition readReg_response (s : HitecDServo) : M Response :=
  old_sreg <- get_SREG ;;
  cli ;;
  const_0x69 <- readByte s ;;
  mystery <- readByte s ;;
  reg2 <- readByte s ;;
  const_0x02 <- readByte s ;;
  low <- readByte s ;;
  high <- readByte s ;;
  checksum2 <- readByte s ;;
  set_SREG old_sreg ;;
  delay 1 ;;
  ret (mkResponse const_0x69 mystery reg2 const_0x02 low high checksum2).

(** [readReg], lines 170-181: the checks on the response, and the value
    stored through [val_out].  [low + (high << 8)] is computed in [int]
    and converted to [uint16_t]. *)
Definition check_response (reg : Z) (r : Response) (val_out : Z) : Z * Z :=
  if negb (const_0x69 r =? 0x69) then (HITECD_ERR_CORRUPT, val_out)
  else if mystery r <? 0 then (HITECD_ERR_CORRUPT, val_out)
  else if negb (reg2 r =? reg) then (HITECD_ERR_CORRUPT, val_out)
  else if negb (const_0x02 r =? 0x02) then (HITECD_ERR_CORRUPT, val_out)
  else if low r <? 0 then (HITECD_ERR_CORRUPT, val_out)
  else if high r <? 0 then (HITECD_ERR_CORRUPT, val_out)
  else if negb (checksum2 r =?
                Z.land (mystery r + reg2 r + const_0x02 r + low r + high r) 0xFF)
  then (HITECD_ERR_CORRUPT, val_out)
  else (HITECD_OK, uint16 (int16 (low r + int16 (Z.shiftl (high r) 8)))).

(** [readReg(reg, val_out)]: the result code and the contents of
    [*val_out] on return ([val_out] on entry). *)
Definition readReg (s : HitecDServo) (reg : Z) (val_out : Z) : M (Z * Z) :=
  readReg_request s reg ;;
  (* the servo should be pulling the pin low *)
  l <- digitalRead (pin s) ;;
  if negb (Bool.eqb l LOW) then
    delay 2 ;;
    pinMode (pin s) OUTPUT ;;
    ret (HITECD_ERR_NO_SERVO, val_out)
  else
    r <- readReg_response s ;;
    (* the servo should have released the line *)
    l <- digitalRead (pin s) ;;
    if negb (Bool.eqb l HIGH) then
      pinMode (pin s) OUTPUT ;;
      ret (HITECD_ERR_NO_RESISTOR, val_out)
    else
      pinMode (pin s) OUTPUT ;;
      ret (check_response reg r val_out).

(** [readModelNumber]: the local [modelNumber] is uninitialised and is
    read only after [readReg] has stored into it; it starts as [0] here.
    The [uint16_t] is returned as an [int]. *)
Definition readModelNumber (s : HitecDServo) : M Z :=
  r <- readReg s 0x00 0 ;;
  let (res, modelNumber) := r in
  if res <? 0 then ret res
  else ret (int16 modelNumber).

(** ** What an exchange looks like from outside *)

(** The events a computation appended to the log. *)
Definition events_since (w w' : World) : list Event :=
  skipn (length (trace w)) (trace w').

(** The three observations of a register read: the line level at the
    first check, the seven [readByte] results, the line level at the
    second check. *)
Definition first_level (s : HitecDServo) (reg : Z) (w : World) : bool :=
  fst (digitalRead (pin s) (snd (readReg_request s reg w))).

Definition response_start (s : HitecDServo) (reg : Z) (w : World) : World :=
  snd (digitalRead (pin s) (snd (readReg_request s reg w))).

Definition response (s : HitecDServo) (reg : Z) (w : World) : Response :=
  fst (readReg_response s (response_start s reg w)).

Definition second_level (s : HitecDServo) (reg : Z) (w : World) : bool :=
  fst (digitalRead (pin s) (snd (readReg_response s (response_start s reg w)))).

Definition response_list (r : Response) : list Z :=
  [const_0x69 r; mystery r; reg2 r; const_0x02 r; low r; high r; checksum2 r].

(** A [readByte] result that is a byte, a time-out, a framing fault. *)
Definition is_byte (b : Z) : Prop := 0 <= b < 256.
Definition timed_out (b : Z) : Prop := b = HITECD_ERR_NO_SERVO.
Definition framing_fault (b : Z) : Prop := b = HITECD_ERR_CORRUPT.
Definition rx_result (b : Z) : Prop := is_byte b \/ timed_out b \/ framing_fault b.

(** The four comparisons [readReg] makes on a response: the echo byte,
    the echoed register, the constant byte, the checksum. *)
Definition validation_mismatch (reg : Z) (r : Response) : Prop :=
  const_0x69 r <> 0x69 \/
  reg2 r <> reg \/
  const_0x02 r <> 0x02 \/
  checksum2 r <> (mystery r + reg2 r + 0x02 + low r + high r) mod 256.

(** The seven positions of a response, to replace one byte of it. *)
Inductive Position := P0 | P1 | P2 | P3 | P4 | P5 | P6.

Definition get_byte (p : Position) (r : Response) : Z :=
  match p with
  | P0 => const_0x69 r | P1 => mystery r | P2 => reg2 r | P3 => const_0x02 r
  | P4 => low r | P5 => high r | P6 => checksum2 r
  end.

Definition set_byte (p : Position) (b : Z) (r : Response) : Response :=
  match p with
  | P0 => mkResponse b (mystery r) (reg2 r) (const_0x02 r) (low r) (high r) (checksum2 r)
  | P1 => mkResponse (const_0x69 r) b (reg2 r) (const_0x02 r) (low r) (high r) (checksum2 r)
  | P2 => mkResponse (const_0x69 r) (mystery r) b (const_0x02 r) (low r) (high r) (checksum2 r)
  | P3 => mkResponse (const_0x69 r) (mystery r) (reg2 r) b (low r) (high r) (checksum2 r)
  | P4 => mkResponse (const_0x69 r) (mystery r) (reg2 r) (const_0x02 r) b (high r) (checksum2 r)
  | P5 => mkResponse (const_0x69 r) (mystery r) (reg2 r) (const_0x02 r) (low r) b (checksum2 r)
  | P6 => mkResponse (const_0x69 r) (mystery r) (reg2 r) (const_0x02 r) (low r) (high r) b
  end.

(** *** The wire format, seen by a receiver *)

(** The level of the pin given the contents of its output register. *)
Definition level_of (mask v : Z) : bool := negb (Z.land v mask =? 0).

(** The levels the servo pin took, one per bit period: every store to the
    output register is followed by one bit period of delay. *)
Definition tx_levels (s : HitecDServo) (evs : list Event) : list bool :=
  flat_map (fun e =>
    match e with
    | EvStore a v =>
        if a =? pinOutputRegister s then [level_of (pinBitMask s) v] else []
    | _ => []
    end) evs.

(** Inverted 8N1, least significant bit first: a HIGH start bit, eight
    data bits (HIGH for 0, LOW for 1), a LOW stop bit. *)
Definition data_bit (level : bool) (weight : Z) : Z := if level then 0 else weight.

Fixpoint uart_decode (levels : list bool) : option (list Z) :=
  match levels with
  | [] => Some []
  | start :: b0 :: b1 :: b2 :: b3 :: b4 :: b5 :: b6 :: b7 :: stop :: rest =>
      if start && negb stop then
        match uart_decode rest with
        | Some bytes =>
            Some (data_bit b0 1 + data_bit b1 2 + data_bit b2 4 + data_bit b3 8
                  + data_bit b4 16 + data_bit b5 32 + data_bit b6 64 + data_bit b7 128
                  :: bytes)
        | None => None
        end
      else None
  | _ => None
  end.

(** The bytes a computation put on the wire between [w] and [w']. *)
Definition sent_bytes (s : HitecDServo) (w w' : World) : option (list Z) :=
  uart_decode (tx_levels s (events_since w w')).

(** *** A simulated servo *)

(** What the servo does during one byte slot of its response. *)
Inductive Rx :=
| RxByte (b : Z)        (* a well-framed byte *)
| RxFraming (b : Z)     (* the data bits of [b], but the stop bit stays HIGH *)
| RxSilent.             (* no start bit until [readByte] gives up *)

Definition data_levels (b : Z) : list bool :=
  map (fun m => Z.land b m =? 0) [1; 2; 4; 8; 16; 32; 64; 128].

(** The ten levels of a well-framed byte. *)
Definition frame (b : Z) : list bool := HIGH :: data_levels b ++ [LOW].

Definition rx_levels (r : Rx) : list bool :=
  match r with
  | RxByte b => frame b
  | RxFraming b => HIGH :: data_levels b ++ [HIGH]
  | RxSilent => repeat LOW (Z.to_nat (timeout_count hw))
  end.

(** The line as [readReg] observes it: the level at the first check, the
    byte slots, the level at the second check, then LOW. *)
Definition servo_line (first : bool) (slots : list Rx) (second : bool) : nat -> bool :=
  fun n => nth n (first :: flat_map rx_levels slots ++ [second]) LOW.

(** *** Interrupt suppression, read off the event log *)

Definition interrupts_enabled (sreg : Z) : bool := Z.testbit sreg 7.

(** [guarded s0 cur evs]: replaying [evs] from status register [cur],
    every bit-level access to the pin happens with interrupts disabled,
    every [delay] happens with the status register as it was at the call
    ([s0]), and at the end the status register is [s0] again. *)
Fixpoint guarded (s0 cur : Z) (evs : list Event) : bool :=
  match evs with
  | [] => cur =? s0
  | EvCli :: evs' => guarded s0 (Z.land cur 127) evs'
  | EvSetSREG v :: evs' => guarded s0 v evs'
  | (EvStore _ _ | EvSample _ _ | EvDelayUs _ _) :: evs' =>
      negb (interrupts_enabled cur) && guarded s0 cur evs'
  | EvDelayMs _ :: evs' => (cur =? s0) && guarded s0 cur evs'
  | _ :: evs' => guarded s0 cur evs'
  end.

Definition bit_io (e : Event) : bool :=
  match e with
  | EvStore _ _ | EvSample _ _ | EvDelayUs _ _ => true
  | _ => false
  end.

End Library.

(** ** Configuration ([struct HitecDServoConfig]) *)

Module Config.

Record t := mk {
  id : Z;
  counterclockwise : bool;
  speed : Z;
  deadband : Z;
  softStart : Z;
  rawAngleFor850 : Z;
  rawAngleFor1500 : Z;
  rawAngleFor2150 : Z;
  failSafe : Z;
  failSafeLimp : bool;
  overloadProtection : Z;
  smartSense : bool;
  sensitivityRatio : Z
}.

(** The legal values, as the header documents them field by field; a raw
    angle is [-1] (keep the factory default) or lies in 0..16383. *)
Definition legal_angle (a : Z) : Prop := a = -1 \/ 0 <= a <= 16383.

Definition legal (c : t) : Prop :=
  0 <= id c <= 254 /\
  In (speed c) [10; 20; 30; 40; 50; 60; 70; 80; 90; 100] /\
  1 <= deadband c <= 10 /\
  In (softStart c) [20; 40; 60; 80; 100] /\
  legal_angle (rawAngleFor850 c) /\
  legal_angle (rawAngleFor1500 c) /\
  legal_angle (rawAngleFor2150 c) /\
  In (overloadProtection c) [100; 10; 20; 30; 40; 50] /\
  819 <= sensitivityRatio c <= 4095.

Definition mem (x : Z) (l : list Z) : bool := existsb (Z.eqb x) l.

Definition angle_ok (a : Z) : bool := (a =? -1) || ((0 <=? a) && (a <=? 16383)).

(** The same, as the check a validator runs. *)
Definition validate (c : t) : bool :=
  ((0 <=? id c) && (id c <=? 254)) &&
  mem (speed c) [10; 20; 30; 40; 50; 60; 70; 80; 90; 100] &&
  ((1 <=? deadband c) && (deadband c <=? 10)) &&
  mem (softStart c) [20; 40; 60; 80; 100] &&
  angle_ok (rawAngleFor850 c) &&
  angle_ok (rawAngleFor1500 c) &&
  angle_ok (rawAngleFor2150 c) &&
  mem (overloadProtection c) [100; 10; 20; 30; 40; 50] &&
  ((819 <=? sensitivityRatio c) && (sensitivityRatio c <=? 4095)).

End Config.

(** Modelled from the spec: the outcome of a configuration write, with
    the error kinds of the specification (the header has no code for
    Validation). *)
Inductive Error :=
| NoServo | NoResistor | Corrupt | UnsupportedModel | NotAttached | Validation.

Inductive Result := Ok | Err (e : Error).

Section ConfigWrite.

(** The register map of the configuration is kept abstract: which models
    are supported, the register writes that reset the servo to its
    factory defaults, and the register writes that encode the
    non-sentinel fields of a configuration. *)
Variable model_supported : Z -> bool.
Variable factory_reset : list (Z * Z).
Variable encode : Config.t -> list (Z * Z).

Fixpoint write_all (s : HitecDServo) (l : list (Z * Z)) : M unit :=
  match l with
  | [] => ret tt
  | (reg, val) :: l' => writeReg s reg val ;; write_all s l'
  end.

(** Modelled from the spec: the body of
    [writeConfigUnknownModelThisMightDamageTheServo], which the header
    only declares.  It validates every field against its legal set first
    (Validation, no write issued), fails with NotAttached when no pin is
    bound, checks model support unless bypassed (UnsupportedModel), resets
    the servo to factory defaults and writes the fields, all through
    [writeReg]. *)
Definition writeConfigUnknownModelThisMightDamageTheServo
    (s : HitecDServo) (config : Config.t) (bypassModelNumberCheck : bool) : M Result :=
  if negb (Config.validate config) then ret (Err Validation)
  else if negb (attached s) then ret (Err NotAttached)
  else if negb bypassModelNumberCheck && negb (model_supported (modelNumber s))
  then ret (Err UnsupportedModel)
  else
    write_all s factory_reset ;;
    write_all s (encode config) ;;
    ret Ok.

(** Modelled from the spec: [writeConfig], which the header only
    declares, is the same without the bypass. *)
Definition writeConfig (s : HitecDServo) (config : Config.t) : M Result :=
  writeConfigUnknownModelThisMightDamageTheServo s config false.

End ConfigWrite.

(** ** Pulse width of a raw angle *)






(** ** A concrete board and a concrete servo, for examples *)

(** An Arduino Uno: pins 0..7 are bits of port D, pins 8..13 of port B;
    [PIND], [DDRD], [PORTD] are at 0x29..0x2B, [PINB], [DDRB], [PORTB] at
    0x23..0x25; the clock runs at 16 MHz. *)
Definition uno_mask (pin : Z) : Z := Z.shiftl 1 (pin mod 8).
Definition uno_port (pin : Z) : Z := if pin <? 8 then 4 else 2.
Definition uno_in (port : Z) : Z := if port =? 4 then 41 else 35.
Definition uno_ddr (port : Z) : Z := if port =? 4 then 42 else 36.
Definition uno_out (port : Z) : Z := if port =? 4 then 43 else 37.

Definition update (r : Z -> Z) (addr v : Z) : Z -> Z :=
  fun a => if a =? addr then v else r a.

Definition uno_digitalWrite (pin : Z) (level : bool) (r : Z -> Z) : Z -> Z :=
  let out := uno_out (uno_port pin) in
  update r out (if level then Z.lor (r out) (uno_mask pin)
                else Z.land (r out) (Z.lnot (uno_mask pin))).

Definition uno_pinMode (pin : Z) (m : PinMode) (r : Z -> Z) : Z -> Z :=
  let ddr := uno_ddr (uno_port pin) in
  match m with
  | OUTPUT => update r ddr (Z.lor (r ddr) (uno_mask pin))
  | INPUT =>
      uno_digitalWrite pin LOW (update r ddr (Z.land (r ddr) (Z.lnot (uno_mask pin))))
  | INPUT_PULLUP =>
      uno_digitalWrite pin HIGH (update r ddr (Z.land (r ddr) (Z.lnot (uno_mask pin))))
  end.

Definition uno : Platform :=
  mkPlatform uno_mask uno_port uno_in uno_out uno_pinMode uno_digitalWrite 4266.

(** The same microcontroller on its 1 MHz factory clock: [readByte] gives
    up after 266 looks at the line. *)
Definition uno_1MHz : Platform :=
  mkPlatform uno_mask uno_port uno_in uno_out uno_pinMode uno_digitalWrite 266.

(** A world with interrupts enabled, all registers clear, and the given
    line. *)
Definition world_with (ln : nat -> bool) : World :=
  mkWorld 130 (fun _ => 0) ln 0 [].

(** A servo object attached to pin 2 of the Uno. *)
Definition servo_on_pin_2 : HitecDServo :=
  fst (attach uno 2 (HitecDServo_new (mkServo 0 0 0 0 0 0 0 0)) (world_with (fun _ => LOW))).

(** A D485HW answering a read of register 0 with its model number, 485. *)
Definition d485_line : nat -> bool :=
  servo_line uno LOW
    [RxByte 105; RxByte 0; RxByte 0; RxByte 2; RxByte 229; RxByte 1; RxByte 232] HIGH.

(** The same answer with the low byte damaged on the wire. *)
Definition damaged_line : nat -> bool :=
  servo_line uno LOW
    [RxByte 105; RxByte 0; RxByte 0; RxByte 2; RxByte 228; RxByte 1; RxByte 232] HIGH.

(** An answer to a read of register 0 whose fifth byte has its stop bit
    violated, while the data bits of all seven bytes sum up correctly. *)
Definition framing_line : nat -> bool :=
  servo_line uno LOW
    [RxByte 105; RxByte 0; RxByte 0; RxByte 2; RxFraming 253; RxByte 0; RxByte 255] HIGH.

(** The members that cache what was read from the servo. *)
Definition cache (s : HitecDServo) : Z * Z * Z * Z :=
  (modelNumber s, rawAngleFor850 s, rawAngleFor1500 s, rawAngleFor2150 s).

(** A servo object on pin 2 whose cache members hold the model number and
    the calibration of a D485HW. *)
Definition d485_on_pin_2 : HitecDServo := mkServo 2 4 41 43 485 3381 8192 13002.


(** The factory-default configuration of the header, and the same with
    an illegal speed. *)
Definition default_config : Config.t :=
  Config.mk 0 false 100 1 20 (-1) (-1) (-1) 0 false 100 true 4095.

Definition speed_15_config : Config.t :=
  Config.mk 0 false 15 1 20 (-1) (-1) (-1) 0 false 100 true 4095.

(** Helpers for the proofs: the bit masks the transmit loop visits, and
    what it means for the pin mask to select a bit of the 8-bit port. *)
Fixpoint loop_masks (fuel : nat) (m : Z) : list Z :=
  match fuel with
  | O => []
  | S fuel' => if m =? 256 then [] else m :: loop_masks fuel' (Z.shiftl m 1)
  end.

Definition valid_mask (s : HitecDServo) : Prop := 0 < pinBitMask s < 256.

(** The value the receive loop accumulates from the levels it samples. *)
Fixpoint rx_value (levels : list bool) (val m : Z) : Z :=
  match levels with
  | [] => val
  | l :: levels' =>
      rx_value levels' (if negb l then uint8 (Z.lor val m) else val) (Z.shiftl m 1)
  end.

(** Events that only look at the line or wait, and events that store to
    a port register. *)
Definition rx_io (e : Event) : bool :=
  match e with
  | EvSample _ _ | EvDelayUs _ _ => true
  | _ => false
  end.

Definition is_store (e : Event) : bool :=
  match e with
  | EvStore _ _ => true
  | _ => false
  end.

(** The levels the line shows at the [n] looks that follow the [from]
    looks already made. *)
Definition looks (w : World) (from n : nat) : list bool :=
  map (fun k => line w (k + from + now w)%nat) (seq 0 n).

(** Events of the transmitter: stores to the port register and waits. *)
Definition tx_io (e : Event) : bool :=
  match e with
  | EvStore _ _ | EvDelayUs _ _ => true
  | _ => false
  end.

(** [w'] differs from [w] at most in the pin's bit of the port register
    behind [pinOutputRegister], which is clear in [w']; nothing was read
    from the line. *)
Definition port_kept (s : HitecDServo) (w w' : World) : Prop :=
  line w' = line w /\ now w' = now w
  /\ (forall a, a <> pinOutputRegister s -> regs w' a = regs w a)
  /\ regs w' (pinOutputRegister s)
     = Z.land (regs w (pinOutputRegister s)) (Z.lnot (pinBitMask s)).

(** ** The command line of the programmer sketch ([CommandLine.cpp]) *)

Module CommandLine.

(** The code of a character literal. *)
Definition ch (c : ascii) : Z := Z.of_N (N_of_ascii c).

(** The globals [rawInput] and [rawInputLen].  The buffer is a function
    of the index: the code also reads [rawInput[i + 1]] at and past
    [rawInputLen], where it finds whatever was left there. *)
Record Input := mkInput {
  rawInput : Z -> Z;
  rawInputLen : Z
}.

(** What a call leaves behind: the returned [bool], [*valOut], and the
    lines given to [Serial.println]. *)
Record Parse := mkParse {
  ok : bool;
  valOut : Z;
  printed : list string
}.

(** [flags & f], as a truth value. *)
Definition has_flag (flags f : Z) : bool := negb (Z.land flags f =? 0).

(** The digit loop of [parseNumber]:
    [while (i < rawInputLen && rawInput[i] >= '0' && rawInput[i] <= '9')].
    It makes at most [rawInputLen] rounds, which is the fuel. *)
Fixpoint scan_digits (fuel : nat) (inp : Input) (i valOut : Z) : Z * Z :=
  match fuel with
  | O => (i, valOut)
  | S fuel' =>
      if (i <? rawInputLen inp) && (ch "0" <=? rawInput inp i)
         && (rawInput inp i <=? ch "9")
      then scan_digits fuel' inp (i + 1)
             (int16 (valOut * 10 + (rawInput inp i - ch "0")))
      else (i, valOut)
  end.

(** [while (i < rawInputLen && rawInput[i] == '0') ++i;] *)
Fixpoint skip_zeros (fuel : nat) (inp : Input) (i : Z) : Z :=
  match fuel with
  | O => i
  | S fuel' =>
      if (i <? rawInputLen inp) && (rawInput inp i =? ch "0")
      then skip_zeros fuel' inp (i + 1)
      else i
  end.

(** The body of [if (flags & QUARTERS)]: the new [i], or [None] where the
    code prints the error and returns, and the new [*valOut]. *)
Definition quarters (inp : Input) (i valOut : Z) : option Z * Z :=
  let valOut := int16 (valOut * 4) in
  if (i <? rawInputLen inp) && (rawInput inp i =? ch ".") then
    let i := i + 1 in
    let '(i', valOut) :=
      if (i <? rawInputLen inp) && (rawInput inp i =? ch "0") then
        (Some (i + 1), valOut)
      else if (i + 1 <? rawInputLen inp) && (rawInput inp i =? ch "2")
              && (rawInput inp (i + 1) =? ch "5") then
        (Some (i + 2), int16 (valOut + 1))
      else if (i <? rawInputLen inp) && (rawInput inp i =? ch "5") then
        (Some (i + 1), int16 (valOut + 2))
      else if (i <? rawInputLen inp) && (rawInput inp i =? ch "7")
              && (rawInput inp (i + 1) =? ch "5") then
        (Some (i + 2), int16 (valOut + 3))
      else (None, valOut) in
    match i' with
    | Some i => (Some (skip_zeros (Z.to_nat (rawInputLen inp)) inp i), valOut)
    | None => (None, valOut)
    end
  else (Some i, valOut).

Section Flags.

(** The flag bits are defined in [CommandLine.h]. *)
Variable PRINT_IF_EMPTY : Z.
Variable QUARTERS : Z.

(** [parseNumber(valOut, flags)], with [valOut0] the contents of
    [*valOut] on entry. *)
Definition parseNumber (inp : Input) (valOut0 : Z) (flags : Z) : Parse :=
  if rawInputLen inp =? 0 then
    mkParse false valOut0
      (if has_flag flags PRINT_IF_EMPTY then ["Error: Input was empty."%string] else [])
  else if rawInput inp 0 =? ch "-" then
    mkParse false valOut0 ["Error: Number must be positive."%string]
  else
    let '(i, valOut) := scan_digits (Z.to_nat (rawInputLen inp)) inp 0 0 in
    let '(i', valOut) :=
      if has_flag flags QUARTERS then quarters inp i valOut
      else (Some i, valOut) in
    match i' with
    | None => mkParse false valOut ["Error: Invalid number."%string]
    | Some i =>
        if negb (i =? rawInputLen inp)
        then mkParse false valOut ["Error: Invalid number."%string]
        else mkParse true valOut []
    end.

End Flags.

Section Words.

(** [tolower] comes from the C library. *)
Variable tolower : Z -> Z.

(** The loop of [parseWord]; [word] holds the characters of the C string
    before its terminator. *)
Fixpoint parseWord_from (inp : Input) (word : list Z) (i : Z) : bool :=
  match word with
  | [] => rawInputLen inp =? i
  | c :: word' =>
      if rawInputLen inp <=? i then false
      else if negb (tolower c =? tolower (rawInput inp i)) then false
      else parseWord_from inp word' (i + 1)
  end.

Definition parseWord (inp : Input) (word : list Z) : bool :=
  parseWord_from inp word 0.

End Words.

(** The globals after the line [cs] was read into a buffer that held
    [stale] before. *)
Definition typed (cs : list Z) (stale : Z -> Z) : Input :=
  mkInput (fun k => if (0 <=? k) && (k <? Z.of_nat (length cs))
                    then nth (Z.to_nat k) cs 0 else stale k)
          (Z.of_nat (length cs)).

Definition is_digit (c : Z) : Prop := ch "0" <= c <= ch "9".

(** One round of the digit loop on [*valOut]. *)
Definition step16 (acc c : Z) : Z := int16 (acc * 10 + (c - ch "0")).

(** The number a string of digits denotes. *)
Definition decimal (cs : list Z) : Z :=
  fold_left (fun acc c => acc * 10 + (c - ch "0")) cs 0.

(** The fractions [parseNumber] knows, with their value in quarters. *)
Definition fractions : list (list Z * Z) :=
  [([ch "."; ch "0"], 0); ([ch "."; ch "2"; ch "5"], 1);
   ([ch "."; ch "5"], 2); ([ch "."; ch "7"; ch "5"], 3)].

(** Two states of the globals that hold the same input line. *)
Definition same_line (a b : Input) : Prop :=
  rawInputLen a = rawInputLen b
  /\ forall k, 0 <= k < rawInputLen a -> rawInput a k = rawInput b k.

End CommandLine.

(** ** Concrete inputs for the further properties *)

(** A line that stays low but for a start bit at the third look of
    [readByte]. *)
Definition late_start_line : nat -> bool := fun k => Nat.eqb k 2.

(** The pin wired back to itself: the line shows, look after look, the
    levels [writeByte] drove on it for [val]. *)
Definition loopback_line (val : Z) : nat -> bool :=
  fun k => nth k (tx_levels servo_on_pin_2
                    (events_since (world_with (fun _ => LOW))
                       (snd (writeByte servo_on_pin_2 val (world_with (fun _ => LOW))))))
             LOW.

(** The text of a line, as character codes. *)
Definition chars (s : string) : list Z :=
  map CommandLine.ch (list_ascii_of_string s).

(** * Properties *)

Section Correctness.

Variable hw : Platform.

Ltac norm_trace :=
  repeat (first [rewrite <- app_assoc | progress cbn [app SREG regs line now trace]]).

Lemma world_eta (w : World) :
  w = mkWorld (SREG w) (regs w) (line w) (now w) (trace w).
Proof. destruct w; reflexivity. Qed.

Lemma events_since_app (w w' : World) (evs : list Event) :
  trace w' = trace w ++ evs -> events_since w w' = evs.
Proof.
  intros H. unfold events_since. rewrite H, skipn_app, Nat.sub_diag, skipn_all.
  reflexivity.
Qed.

(** *** The loops end by their own exits *)

(** With a positive [timeout_counter] the busy wait returns through one
    of its two exits before the fuel runs out: more fuel changes nothing. *)
Lemma wait_start_fuel (s : HitecDServo) (n extra : nat) :
  forall w : World,
    wait_start (S n + extra) s (Z.of_nat (S n)) w
    = wait_start (S n) s (Z.of_nat (S n)) w.
Proof.
  induction n as [|n IH]; intros w.
  - cbn [Nat.add wait_start]. unfold bind. destruct (pin_input s w) as [[] w1];
      reflexivity.
  - change (S (S n) + extra)%nat with (S (S n + extra)).
    cbn [wait_start]. unfold bind. destruct (pin_input s w) as [[] w1]; [reflexivity|].
    replace (Z.of_nat (S (S n)) - 1) with (Z.of_nat (S n)) by lia.
    destruct (Z.eqb_spec (Z.of_nat (S n)) 0); [lia|]. apply IH.
Qed.

Lemma readByte_wait_fuel (s : HitecDServo) (extra : nat) (w : World) :
  0 < timeout_count hw ->
  wait_start (Z.to_nat (timeout_count hw) + extra) s (timeout_count hw) w
  = wait_start (Z.to_nat (timeout_count hw)) s (timeout_count hw) w.
Proof.
  intros H.
  destruct (Z.to_nat (timeout_count hw)) as [|n] eqn:E; [lia|].
  replace (timeout_count hw) with (Z.of_nat (S n)) by lia.
  apply wait_start_fuel.
Qed.

(** The two bit loops leave through [m != 0x100] after eight rounds. *)
Lemma writeByte_loop_fuel (s : HitecDServo) (val : Z) (extra : nat) :
  writeByte_loop (9 + extra) s val 1 = writeByte_loop 9 s val 1.
Proof.
  cbn [Nat.add writeByte_loop Z.eqb Pos.eqb Z.shiftl Pos.iter Z.mul Pos.mul].
  reflexivity.
Qed.

Lemma readByte_loop_fuel (s : HitecDServo) (extra : nat) :
  readByte_loop (9 + extra) s 0 1 = readByte_loop 9 s 0 1.
Proof.
  cbn [Nat.add readByte_loop Z.eqb Pos.eqb Z.shiftl Pos.iter Z.mul Pos.mul].
  reflexivity.
Qed.

(** *** Driving the pin *)

Lemma level_of_set (mask v : Z) :
  0 < mask < 256 -> level_of mask (uint8 (Z.lor v mask)) = true.
Proof.
  intros Hm. unfold level_of, uint8.
  assert (E : Z.land (Z.lor v mask mod 256) mask = mask).
  { apply Z.bits_inj'. intros n Hn. rewrite Z.land_spec.
    destruct (Z.ltb_spec n 8).
    - change 256 with (2 ^ 8). rewrite Z.mod_pow2_bits_low by lia.
      rewrite Z.lor_spec. destruct (Z.testbit mask n), (Z.testbit v n); reflexivity.
    - assert (Z.testbit mask n = false) as ->.
      { rewrite <- (Z.mod_small mask 256) by lia. change 256 with (2 ^ 8).
        apply Z.mod_pow2_bits_high. lia. }
      apply andb_false_r. }
  rewrite E. destruct (Z.eqb_spec mask 0); [lia | reflexivity].
Qed.

Lemma level_of_clear (mask v : Z) :
  0 < mask < 256 -> level_of mask (uint8 (Z.land v (Z.lnot mask))) = false.
Proof.
  intros Hm. unfold level_of, uint8.
  assert (E : Z.land (Z.land v (Z.lnot mask) mod 256) mask = 0).
  { apply Z.bits_inj'. intros n Hn. rewrite Z.land_spec, Z.bits_0.
    destruct (Z.ltb_spec n 8).
    - change 256 with (2 ^ 8). rewrite Z.mod_pow2_bits_low by lia.
      rewrite Z.land_spec, Z.lnot_spec by lia.
      destruct (Z.testbit mask n), (Z.testbit v n); reflexivity.
    - change 256 with (2 ^ 8). rewrite Z.mod_pow2_bits_high by lia. reflexivity. }
  rewrite E. reflexivity.
Qed.

(** The transmit loop leaves the status register, the line and the
    observation count alone and logs only pin accesses; under a valid
    mask the pin takes one level per visited bit: HIGH for 0, LOW for 1. *)
Lemma writeByte_loop_run (s : HitecDServo) (val : Z) (fuel : nat) :
  forall (m : Z) (w : World), exists evs rg,
    writeByte_loop fuel s val m w
    = (tt, mkWorld (SREG w) rg (line w) (now w) (trace w ++ evs))
    /\ forallb bit_io evs = true
    /\ (valid_mask s ->
        tx_levels s evs = map (fun m => Z.land val m =? 0) (loop_masks fuel m)).
Proof.
  induction fuel as [|fuel IH]; intros m w.
  - exists [], (regs w). cbn [writeByte_loop loop_masks map forallb tx_levels flat_map].
    rewrite app_nil_r. unfold ret. rewrite <- world_eta. auto.
  - cbn [writeByte_loop loop_masks]. destruct (m =? 256).
    + exists [], (regs w). cbn [map forallb tx_levels flat_map].
      rewrite app_nil_r. unfold ret. rewrite <- world_eta. auto.
    + destruct (Z.land val m =? 0) eqn:Hbit; cbn [negb];
        cbv [bind out_set out_clear load store DELAY_US_COMPENSATED emit]; cbn [SREG regs line now trace];
        match goal with
        | |- context [writeByte_loop fuel s val ?m' ?w'] =>
            destruct (IH m' w') as (evs & rg & E & Hio & Hlv); rewrite E
        end;
        cbn [SREG regs line now trace];
        eexists (_ :: _ :: evs), rg; rewrite <- !app_assoc;
        (split; [reflexivity|]); (split; [exact Hio|]);
        intros Hm; cbn [tx_levels flat_map app map]; rewrite Z.eqb_refl, Hbit;
        fold (tx_levels s evs); rewrite (Hlv Hm); cbn [app];
        [rewrite level_of_set by exact Hm | rewrite level_of_clear by exact Hm];
        reflexivity.
Qed.

Lemma writeByte_run (s : HitecDServo) (val : Z) (w : World) :
  exists e evs rg,
    writeByte s val w
    = (tt, mkWorld (SREG w) rg (line w) (now w) (trace w ++ e :: evs))
    /\ bit_io e = true /\ e = EvStore (pinOutputRegister s) (uint8 (Z.lor (regs w (pinOutputRegister s)) (pinBitMask s)))
    /\ forallb bit_io evs = true
    /\ (valid_mask s ->
        tx_levels s (e :: evs) = frame val).
Proof.
  cbv [writeByte bind out_set load store DELAY_US_COMPENSATED emit]; cbn [SREG regs line now trace].
  match goal with
  | |- context [writeByte_loop 9%nat s val 1 ?w'] =>
      destruct (writeByte_loop_run s val 9 1 w') as (evs & rg & E & Hio & Hlv); rewrite E
  end.
  cbv [out_clear bind load store DELAY_US_COMPENSATED emit]; cbn [SREG regs line now trace].
  eexists _, (_ :: evs ++ [_; _]), _. rewrite <- !app_assoc. cbn [app].
  split; [reflexivity|]. split; [reflexivity|]. split; [reflexivity|].
  split.
  - cbn [forallb bit_io]. rewrite forallb_app, Hio. reflexivity.
  - intros Hm. cbn [tx_levels flat_map]. rewrite Z.eqb_refl. cbn [app].
    rewrite flat_map_app. fold (tx_levels s evs). rewrite (Hlv Hm).
    cbn [flat_map]. rewrite Z.eqb_refl. cbn [app].
    rewrite level_of_set, level_of_clear by exact Hm.
    reflexivity.
Qed.

(** *** Decoding what was sent *)

Lemma data_bits_value (v : Z) :
  0 <= v < 256 ->
  data_bit (Z.land v 1 =? 0) 1 + data_bit (Z.land v 2 =? 0) 2
  + data_bit (Z.land v 4 =? 0) 4 + data_bit (Z.land v 8 =? 0) 8
  + data_bit (Z.land v 16 =? 0) 16 + data_bit (Z.land v 32 =? 0) 32
  + data_bit (Z.land v 64 =? 0) 64 + data_bit (Z.land v 128 =? 0) 128 = v.
Proof.
  intros Hv.
  assert (All : forallb (fun v =>
            data_bit (Z.land v 1 =? 0) 1 + data_bit (Z.land v 2 =? 0) 2
            + data_bit (Z.land v 4 =? 0) 4 + data_bit (Z.land v 8 =? 0) 8
            + data_bit (Z.land v 16 =? 0) 16 + data_bit (Z.land v 32 =? 0) 32
            + data_bit (Z.land v 64 =? 0) 64 + data_bit (Z.land v 128 =? 0) 128 =? v)
          (map Z.of_nat (seq 0 256)) = true) by (vm_compute; reflexivity).
  rewrite forallb_forall in All.
  apply Z.eqb_eq, All.
  rewrite <- (Z2Nat.id v) by lia. apply in_map, in_seq. lia.
Qed.

Lemma uart_decode_frame (b : Z) (rest : list bool) :
  0 <= b < 256 ->
  uart_decode (frame b ++ rest)
  = match uart_decode rest with Some bytes => Some (b :: bytes) | None => None end.
Proof.
  intros Hb. unfold frame, data_levels. cbn [map app uart_decode HIGH LOW andb negb].
  rewrite (data_bits_value b Hb). reflexivity.
Qed.

Lemma tx_levels_app (s : HitecDServo) (l1 l2 : list Event) :
  tx_levels s (l1 ++ l2) = tx_levels s l1 ++ tx_levels s l2.
Proof. apply flat_map_app. Qed.

(** *** Register writes *)

Ltac step_writeByte :=
  match goal with
  | |- context [writeByte ?s ?b ?w] =>
      let e := fresh "e" in
      let evs := fresh "evs" in
      let rg := fresh "rg" in
      let He := fresh "He" in
      let Hio := fresh "Hio" in
      let Hlv := fresh "Hlv" in
      destruct (writeByte_run s b w) as (e & evs & rg & -> & _ & He & Hio & Hlv);
      cbn [SREG regs line now trace] in *
  end.

Lemma writeReg_run (s : HitecDServo) (reg val : Z) (w : World) :
  exists e evs rg,
    writeReg s reg val w
    = (tt, mkWorld (SREG w) rg (line w) (now w)
                   (trace w ++ EvCli :: e :: evs ++ [EvSetSREG (SREG w)]))
    /\ e = EvStore (pinOutputRegister s)
                   (uint8 (Z.lor (regs w (pinOutputRegister s)) (pinBitMask s)))
    /\ forallb bit_io evs = true
    /\ (valid_mask s ->
        tx_levels s (e :: evs)
        = frame 0x96 ++ frame 0x00 ++ frame reg ++ frame 0x02
          ++ frame (uint8 (Z.land val 0xFF))
          ++ frame (uint8 (Z.land (Z.shiftr val 8) 0xFF))
          ++ frame (uint8 (Z.land (0x00 + reg + 0x02 + uint8 (Z.land val 0xFF)
                                   + uint8 (Z.land (Z.shiftr val 8) 0xFF)) 0xFF))).
Proof.
  cbv [writeReg bind get_SREG cli set_SREG]; cbn [SREG regs line now trace].
  do 7 step_writeByte.
  exists e, (evs ++ (e0 :: evs0) ++ (e1 :: evs1) ++ (e2 :: evs2) ++ (e3 :: evs3)
             ++ (e4 :: evs4) ++ (e5 :: evs5)), rg5.
  split; [|split; [exact He|split]].
  - f_equal. f_equal. norm_trace.
    reflexivity.
  - rewrite !forallb_app. cbn [forallb]. subst e0 e1 e2 e3 e4 e5. cbn [bit_io andb].
    rewrite Hio, Hio0, Hio1, Hio2, Hio3, Hio4, Hio5. reflexivity.
  - intros Hm.
    change (e :: evs ++ (e0 :: evs0) ++ (e1 :: evs1) ++ (e2 :: evs2) ++ (e3 :: evs3)
              ++ (e4 :: evs4) ++ (e5 :: evs5))
      with ((e :: evs) ++ (e0 :: evs0) ++ (e1 :: evs1) ++ (e2 :: evs2) ++ (e3 :: evs3)
              ++ (e4 :: evs4) ++ (e5 :: evs5)).
    rewrite !tx_levels_app.
    rewrite (Hlv Hm), (Hlv0 Hm), (Hlv1 Hm), (Hlv2 Hm), (Hlv3 Hm), (Hlv4 Hm), (Hlv5 Hm).
    reflexivity.
Qed.

Lemma events_since_mk (w : World) (a : Z) (b : Z -> Z) (c : nat -> bool) (d : nat)
    (evs : list Event) :
  events_since w (mkWorld a b c d (trace w ++ evs)) = evs.
Proof. apply events_since_app. reflexivity. Qed.

Lemma land_0xFF (x : Z) : Z.land x 0xFF = x mod 256.
Proof. change 0xFF with (Z.ones 8). rewrite Z.land_ones by lia. reflexivity. Qed.

Lemma uint8_land_0xFF (x : Z) : uint8 (Z.land x 0xFF) = x mod 256.
Proof. unfold uint8. rewrite land_0xFF. apply Z.mod_mod. lia. Qed.

Lemma events_since_snd {A} (m : M A) (w : World) (a : A) (w' : World) (evs : list Event) :
  m w = (a, w') -> trace w' = trace w ++ evs -> events_since w (snd (m w)) = evs.
Proof. intros -> H. apply events_since_app. exact H. Qed.

(** C2. A register write puts exactly the seven bytes
    0x96, 0x00, reg, 0x02, valLo, valHi, checksum on the wire, in this
    order, with valLo = val mod 256, valHi = val div 256 and
    checksum = (0x00 + reg + 0x02 + valLo + valHi) mod 256; for reg = 0x00,
    val = 0x0000 the checksum is 0x02, for reg = 0x0A, val = 0x1234 it is
    (0x0A + 0x02 + 0x34 + 0x12) & 0xFF. *)
Theorem writeReg_sends_frame (s : HitecDServo) (reg val : Z) (w : World) :
  valid_mask s -> 0 <= reg < 256 -> 0 <= val < 65536 ->
  let valLo := val mod 256 in
  let valHi := val / 256 in
  let checksum := (0x00 + reg + 0x02 + valLo + valHi) mod 256 in
  sent_bytes s w (snd (writeReg s reg val w))
  = Some [0x96; 0x00; reg; 0x02; valLo; valHi; checksum]
  /\ (reg = 0x00 -> val = 0x0000 -> checksum = 0x02)
  /\ (reg = 0x0A -> val = 0x1234 ->
      checksum = Z.land (0x0A + 0x02 + 0x34 + 0x12) 0xFF).
Proof.
  intros Hm Hreg Hval valLo valHi checksum.
  split; [|split; intros -> ->; reflexivity].
  destruct (writeReg_run s reg val w) as (e & evs & rg & E & _ & _ & Hlv).
  unfold sent_bytes.
  rewrite (events_since_snd _ _ _ _ _ E eq_refl).
  change (EvCli :: e :: evs ++ [EvSetSREG (SREG w)])
    with ([EvCli] ++ (e :: evs) ++ [EvSetSREG (SREG w)]).
  rewrite !tx_levels_app, (Hlv Hm). cbn [tx_levels flat_map app].
  rewrite !uint8_land_0xFF.
  assert (Hlo : 0 <= valLo < 256) by (apply Z.mod_pos_bound; lia).
  assert (Hhi : Z.shiftr val 8 mod 256 = valHi).
  { rewrite Z.shiftr_div_pow2 by lia. change (2 ^ 8) with 256.
    apply Z.mod_small. subst valHi.
    split; [apply Z.div_pos; lia | apply Z.div_lt_upper_bound; lia]. }
  rewrite Hhi. fold valLo. fold checksum.
  assert (Hhi' : 0 <= valHi < 256).
  { rewrite <- Hhi. apply Z.mod_pos_bound. lia. }
  assert (Hck : 0 <= checksum < 256) by (apply Z.mod_pos_bound; lia).
  rewrite <- !app_assoc.
  rewrite !uart_decode_frame by lia.
  reflexivity.
Qed.

(** *** Receiving *)

Lemma wait_start_run (s : HitecDServo) (fuel : nat) :
  forall (tc : Z) (w : World), exists b evs n',
    wait_start fuel s tc w
    = (b, mkWorld (SREG w) (regs w) (line w) n' (trace w ++ evs))
    /\ forallb bit_io evs = true.
Proof.
  induction fuel as [|fuel IH]; intros tc w.
  - exists false, [], (now w). cbn [wait_start forallb]. rewrite app_nil_r.
    unfold ret. rewrite <- world_eta. auto.
  - cbn [wait_start]. cbv [bind pin_input observe]; cbn [SREG regs line now trace].
    destruct (line w (now w)).
    + exists true. eexists [_], _. split; reflexivity.
    + destruct (tc - 1 =? 0).
      * exists false. eexists [_], _. split; reflexivity.
      * match goal with
        | |- context [wait_start fuel s ?tc' ?w'] =>
            destruct (IH tc' w') as (b & evs & n' & E & Hio); rewrite E
        end.
        cbn [SREG regs line now trace].
        exists b. eexists (_ :: evs), n'. rewrite <- app_assoc.
        split; [reflexivity | exact Hio].
Qed.

Lemma readByte_loop_run (s : HitecDServo) (fuel : nat) :
  forall (val m : Z) (w : World), 0 <= val < 256 -> exists r evs n',
    readByte_loop fuel s val m w
    = (r, mkWorld (SREG w) (regs w) (line w) n' (trace w ++ evs))
    /\ forallb bit_io evs = true /\ 0 <= r < 256.
Proof.
  induction fuel as [|fuel IH]; intros val m w Hval.
  - exists val, [], (now w). cbn [readByte_loop forallb]. rewrite app_nil_r.
    unfold ret. rewrite <- world_eta. auto.
  - cbn [readByte_loop]. destruct (m =? 256).
    + exists val, [], (now w). cbn [forallb]. rewrite app_nil_r.
      unfold ret. rewrite <- world_eta. auto.
    + cbv [bind pin_input observe DELAY_US_COMPENSATED emit]; cbn [SREG regs line now trace].
      match goal with
      | |- context [readByte_loop fuel s ?val' ?m' ?w'] =>
          destruct (IH val' m' w') as (r & evs & n' & E & Hio & Hr);
            [|rewrite E]
      end.
      { destruct (negb (line w (now w))); [|exact Hval].
        apply Z.mod_pos_bound. lia. }
      cbn [SREG regs line now trace].
      exists r. eexists (_ :: _ :: evs), n'. rewrite <- !app_assoc.
      split; [reflexivity|]. split; [exact Hio | exact Hr].
Qed.

(** [readByte] leaves the status register and the I/O registers alone,
    logs only pin accesses, and returns a byte, [HITECD_ERR_NO_SERVO]
    (time-out) or [HITECD_ERR_CORRUPT] (stop bit not low). *)
Lemma readByte_run (s : HitecDServo) (w : World) :
  exists r evs n',
    readByte hw s w
    = (r, mkWorld (SREG w) (regs w) (line w) n' (trace w ++ evs))
    /\ forallb bit_io evs = true /\ rx_result r.
Proof.
  unfold readByte. unfold bind at 1.
  destruct (wait_start_run s (Z.to_nat (timeout_count hw)) (timeout_count hw) w)
    as (b & evs & n' & -> & Hio).
  destruct b; cbn [negb].
  - cbv [bind DELAY_US_COMPENSATED emit]; cbn [SREG regs line now trace].
    match goal with
    | |- context [readByte_loop 9%nat s 0 1 ?w'] =>
        destruct (readByte_loop_run s 9 0 1 w') as (r & evs1 & n1 & -> & Hio1 & Hr);
          [lia|]
    end.
    cbv [pin_input observe]; cbn [SREG regs line now trace].
    destruct (line w n1).
    + exists HITECD_ERR_CORRUPT. eexists (evs ++ _ :: evs1 ++ [_]), _.
      split; [|split].
      * unfold ret. f_equal. f_equal.
        norm_trace. reflexivity.
      * rewrite forallb_app. cbn [forallb bit_io]. rewrite forallb_app, Hio, Hio1.
        reflexivity.
      * right; right; reflexivity.
    + exists r. eexists (evs ++ _ :: evs1 ++ [_]), _.
      split; [|split].
      * unfold ret. f_equal. f_equal.
        norm_trace. reflexivity.
      * rewrite forallb_app. cbn [forallb bit_io]. rewrite forallb_app, Hio, Hio1.
        reflexivity.
      * left; exact Hr.
  - exists HITECD_ERR_NO_SERVO, evs, n'. unfold ret.
    split; [reflexivity|]. split; [exact Hio|]. right; left; reflexivity.
Qed.


(** *** What is sent is what is received *)

Lemma rx_value_data_levels (b : Z) :
  0 <= b < 256 -> rx_value (data_levels b) 0 1 = b.
Proof.
  intros Hb.
  assert (All : forallb (fun v => rx_value (data_levels v) 0 1 =? v)
                  (map Z.of_nat (seq 0 256)) = true) by (vm_compute; reflexivity).
  rewrite forallb_forall in All.
  apply Z.eqb_eq, All.
  rewrite <- (Z2Nat.id b) by lia. apply in_map, in_seq. lia.
Qed.

Lemma readByte_loop_value (s : HitecDServo) (fuel : nat) :
  forall (levels : list bool) (val m : Z) (w : World),
    length levels = length (loop_masks fuel m) ->
    (forall k, (k < length levels)%nat -> line w (k + now w) = nth k levels LOW) ->
    exists w',
      readByte_loop fuel s val m w = (rx_value levels val m, w')
      /\ line w' = line w /\ now w' = (length levels + now w)%nat.
Proof.
  induction fuel as [|fuel IH]; intros levels val m w Hlen L.
  - destruct levels; [|discriminate Hlen]. exists w. auto.
  - cbn [readByte_loop loop_masks] in *. destruct (m =? 0x100).
    + destruct levels; [|discriminate Hlen]. exists w. auto.
    + destruct levels as [|l levels]; [discriminate Hlen|].
      cbn [length] in Hlen. injection Hlen as Hlen.
      pose proof (L 0%nat ltac:(cbn [length]; lia)) as L0. cbn [Nat.add nth] in L0.
      cbv [bind pin_input observe DELAY_US_COMPENSATED emit].
      cbn [SREG regs line now trace]. rewrite L0.
      match goal with
      | |- context [readByte_loop fuel s ?val' ?m' ?w'] =>
          destruct (IH levels val' m' w' Hlen) as (w1 & E & Hl & Hn)
      end.
      { cbn [line now]. intros k Hk. rewrite Nat.add_succ_r.
        apply (L (S k)). cbn [length]. lia. }
      exists w1. rewrite E. cbn [rx_value line now length] in *.
      split; [reflexivity|]. split; [exact Hl|]. rewrite Hn. lia.
Qed.

(** The link is consistent: when the line shows the ten levels of the
    frame of a byte, [readByte] returns that byte, after ten looks at the
    line. *)
Lemma readByte_receives_frame (s : HitecDServo) (b : Z) (w : World) :
  0 <= b < 256 -> 0 < timeout_count hw ->
  (forall k, (k < 10)%nat -> line w (k + now w) = nth k (frame b) LOW) ->
  fst (readByte hw s w) = b /\ now (snd (readByte hw s w)) = (10 + now w)%nat.
Proof.
  intros Hb Ht L.
  pose proof (L 0%nat ltac:(lia)) as L0. cbn [Nat.add nth frame] in L0.
  unfold HIGH in L0.
  pose proof (L 9%nat ltac:(lia)) as L9.
  unfold frame, data_levels in L9. cbn [Nat.add nth map app] in L9.
  unfold LOW in L9.
  unfold readByte.
  destruct (Z.to_nat (timeout_count hw)) as [|n] eqn:E; [lia|].
  cbn [wait_start]. cbv [bind pin_input observe]. cbn [SREG regs line now trace].
  rewrite L0. cbv [ret negb DELAY_US_COMPENSATED emit]. cbn [SREG regs line now trace].
  match goal with
  | |- context [readByte_loop 9%nat s 0 1 ?w'] =>
      destruct (readByte_loop_value s 9 (data_levels b) 0 1 w' eq_refl)
        as (w1 & E1 & Hl & Hn)
  end.
  { cbn [line now]. intros k Hk. rewrite Nat.add_succ_r.
    change (length (data_levels b)) with 8%nat in Hk.
    pose proof (L (S k) ltac:(lia)) as Lk. cbn [Nat.add nth frame] in Lk.
    rewrite app_nth1 in Lk by (change (length (data_levels b)) with 8%nat; lia).
    exact Lk. }
  rewrite E1. cbn [line now] in Hl, Hn.
  change (length (data_levels b)) with 8%nat in Hn.
  rewrite Hl, Hn. cbn [Nat.add]. rewrite L9. cbn [fst snd now].
  split; [apply rx_value_data_levels; exact Hb | reflexivity].
Qed.

(** *** Register reads *)

Ltac step_readByte :=
  match goal with
  | |- context [readByte ?hw ?s ?w] =>
      let r := fresh "r" in
      let evs := fresh "evs" in
      let n := fresh "n" in
      let Hio := fresh "Hio" in
      let Hr := fresh "Hr" in
      destruct (readByte_run s w) as (r & evs & n & -> & Hio & Hr);
      cbn [SREG regs line now trace] in *
  end.

(** The request phase: interrupts off, five bytes, line low, interrupts
    restored, 14 ms of settling, line released.  The line is not looked
    at. *)
Lemma readReg_request_run (s : HitecDServo) (reg : Z) (w : World) :
  exists e evs rg,
    readReg_request hw s reg w
    = (tt, mkWorld (SREG w) rg (line w) (now w)
                   (trace w ++ EvCli :: e :: evs
                      ++ [EvDigitalWrite (pin s) LOW; EvSetSREG (SREG w);
                          EvDelayMs 14; EvPinMode (pin s) INPUT_PULLUP]))
    /\ e = EvStore (pinOutputRegister s)
                   (uint8 (Z.lor (regs w (pinOutputRegister s)) (pinBitMask s)))
    /\ forallb bit_io evs = true
    /\ (valid_mask s ->
        tx_levels s (e :: evs)
        = frame 0x96 ++ frame 0x00 ++ frame reg ++ frame 0x00
          ++ frame (uint8 (Z.land (0x00 + reg + 0x00) 0xFF))).
Proof.
  cbv [readReg_request bind get_SREG cli set_SREG digitalWrite delay pinMode emit];
    cbn [SREG regs line now trace].
  do 5 step_writeByte.
  exists e, (evs ++ (e0 :: evs0) ++ (e1 :: evs1) ++ (e2 :: evs2) ++ (e3 :: evs3)).
  eexists.
  split; [|split; [exact He|split]].
  - f_equal. f_equal. norm_trace.
    reflexivity.
  - rewrite !forallb_app. cbn [forallb]. subst e0 e1 e2 e3. cbn [bit_io andb].
    rewrite Hio, Hio0, Hio1, Hio2, Hio3. reflexivity.
  - intros Hm.
    change (e :: evs ++ (e0 :: evs0) ++ (e1 :: evs1) ++ (e2 :: evs2) ++ (e3 :: evs3))
      with ((e :: evs) ++ (e0 :: evs0) ++ (e1 :: evs1) ++ (e2 :: evs2) ++ (e3 :: evs3)).
    rewrite !tx_levels_app.
    rewrite (Hlv Hm), (Hlv0 Hm), (Hlv1 Hm), (Hlv2 Hm), (Hlv3 Hm).
    reflexivity.
Qed.

(** The response phase: interrupts off, seven [readByte]s, interrupts
    restored, 1 ms of settling. *)
Lemma readReg_response_run (s : HitecDServo) (w : World) :
  exists r evs n',
    readReg_response hw s w
    = (r, mkWorld (SREG w) (regs w) (line w) n'
                  (trace w ++ EvCli :: evs ++ [EvSetSREG (SREG w); EvDelayMs 1]))
    /\ forallb bit_io evs = true
    /\ Forall rx_result (response_list r).
Proof.
  cbv [readReg_response bind get_SREG cli set_SREG delay emit];
    cbn [SREG regs line now trace].
  do 7 step_readByte.
  eexists. exists (evs ++ evs0 ++ evs1 ++ evs2 ++ evs3 ++ evs4 ++ evs5). eexists.
  split; [|split].
  - unfold ret. f_equal. f_equal.
    norm_trace. reflexivity.
  - rewrite !forallb_app, Hio, Hio0, Hio1, Hio2, Hio3, Hio4, Hio5. reflexivity.
  - cbn [response_list const_0x69 mystery reg2 const_0x02 low high checksum2].
    repeat (apply Forall_cons; [assumption|]). apply Forall_nil.
Qed.

(** The first check looks at the line where the caller left it. *)
Lemma first_level_line (s : HitecDServo) (reg : Z) (w : World) :
  first_level hw s reg w = line w (now w).
Proof.
  unfold first_level.
  destruct (readReg_request_run s reg w) as (e & evs & rg & -> & _).
  reflexivity.
Qed.

(** The result of [readReg] as a function of its three observations. *)
Lemma readReg_result (s : HitecDServo) (reg val_out : Z) (w : World) :
  fst (readReg hw s reg val_out w)
  = if negb (Bool.eqb (first_level hw s reg w) LOW)
    then (HITECD_ERR_NO_SERVO, val_out)
    else if negb (Bool.eqb (second_level hw s reg w) HIGH)
         then (HITECD_ERR_NO_RESISTOR, val_out)
         else check_response reg (response hw s reg w) val_out.
Proof.
  unfold readReg, first_level, second_level, response, response_start.
  unfold bind at 1.
  destruct (readReg_request hw s reg w) as [[] w1]. cbn [snd].
  unfold bind at 1.
  destruct (digitalRead (pin s) w1) as [l1 w2]. cbn [fst snd].
  destruct (negb (Bool.eqb l1 LOW)).
  - reflexivity.
  - unfold bind at 1.
    destruct (readReg_response hw s w2) as [r w3]. cbn [fst snd].
    unfold bind at 1.
    destruct (digitalRead (pin s) w3) as [l2 w4]. cbn [fst].
    destruct (negb (Bool.eqb l2 HIGH)); reflexivity.
Qed.

(** *** Validation of the response *)

Lemma uint16_int16 (z : Z) : uint16 (int16 z) = uint16 z.
Proof.
  unfold uint16, int16.
  rewrite Zminus_mod_idemp_l. f_equal. lia.
Qed.

(** [low + (high << 8)], computed in 16-bit [int] and stored in a
    [uint16_t], is [low | (high << 8)] for two bytes. *)
Lemma value_assembly (lo hi : Z) :
  0 <= lo < 256 -> 0 <= hi < 256 ->
  uint16 (int16 (lo + int16 (Z.shiftl hi 8))) = Z.lor lo (Z.shiftl hi 8).
Proof.
  intros Hlo Hhi.
  rewrite uint16_int16. unfold uint16.
  rewrite <- Zplus_mod_idemp_r.
  change (int16 (Z.shiftl hi 8) mod 65536) with (uint16 (int16 (Z.shiftl hi 8))).
  rewrite uint16_int16. unfold uint16. rewrite Zplus_mod_idemp_r.
  rewrite Z.shiftl_mul_pow2 by lia. change (2 ^ 8) with 256.
  rewrite Z.mod_small by lia.
  assert (Z.land lo (hi * 256) = 0) as Hland; [|rewrite Z.add_nocarry_lxor, Z.lxor_lor by exact Hland; reflexivity].
  apply Z.bits_inj'. intros n Hn. rewrite Z.land_spec, Z.bits_0.
  destruct (Z.ltb_spec n 8).
  - change 256 with (2 ^ 8). rewrite Z.mul_pow2_bits_low by lia. apply andb_false_r.
  - rewrite <- (Z.mod_small lo 256) by lia. change 256 with (2 ^ 8).
    rewrite Z.mod_pow2_bits_high by lia. reflexivity.
Qed.

Lemma Exists_7 {A} (P : A -> Prop) (a b c d e f g : A) :
  Exists P [a; b; c; d; e; f; g] <-> P a \/ P b \/ P c \/ P d \/ P e \/ P f \/ P g.
Proof.
  repeat rewrite Exists_cons. rewrite Exists_nil. tauto.
Qed.

Lemma Forall_7 {A} (P : A -> Prop) (a b c d e f g : A) :
  Forall P [a; b; c; d; e; f; g] <-> P a /\ P b /\ P c /\ P d /\ P e /\ P f /\ P g.
Proof.
  repeat rewrite Forall_cons_iff. rewrite Forall_nil_iff. tauto.
Qed.

Lemma rx_negative (b : Z) : rx_result b -> b < 0 -> timed_out b \/ framing_fault b.
Proof.
  unfold rx_result, is_byte. intros [H|H] Hb; [lia | exact H].
Qed.

Lemma rx_nonneg (b : Z) : rx_result b -> 0 <= b -> is_byte b.
Proof.
  unfold rx_result, is_byte, timed_out, framing_fault,
    HITECD_ERR_NO_SERVO, HITECD_ERR_CORRUPT.
  intros [H|[H|H]] Hb; lia.
Qed.

Lemma failed_negative (b : Z) : timed_out b \/ framing_fault b -> b < 0.
Proof.
  unfold timed_out, framing_fault, HITECD_ERR_NO_SERVO, HITECD_ERR_CORRUPT.
  intros [H|H]; lia.
Qed.

(** What [check_response] decides, for seven [readByte] results. *)
Lemma check_response_spec (reg : Z) (r : Response) (val_out : Z) :
  0 <= reg < 256 ->
  Forall rx_result (response_list r) ->
  (fst (check_response reg r val_out) = HITECD_ERR_CORRUPT <->
   validation_mismatch reg r \/
   Exists (fun b => timed_out b \/ framing_fault b) (response_list r))
  /\ (fst (check_response reg r val_out) <> HITECD_ERR_CORRUPT ->
      check_response reg r val_out
      = (HITECD_OK, Z.lor (low r) (Z.shiftl (high r) 8))).
Proof.
  intros Hreg HF. destruct r as [c69 my r2 c02 lo hi ck].
  unfold response_list in *. rewrite Exists_7. rewrite Forall_7 in HF.
  unfold check_response, validation_mismatch.
  cbn [const_0x69 mystery reg2 const_0x02 low high checksum2] in *.
  rewrite land_0xFF.
  destruct HF as (_ & H1 & _ & _ & H4 & H5 & _).
  destruct (Z.eqb_spec c69 0x69) as [E0|E0]; cbn [negb fst];
    [|split; [split; [intros _; left; left; exact E0 | reflexivity] | congruence]].
  destruct (Z.ltb_spec my 0) as [E1|E1]; cbn [fst];
    [split; [split; [intros _; right; right; left; exact (rx_negative _ H1 E1)
                    | reflexivity] | congruence]|].
  destruct (Z.eqb_spec r2 reg) as [E2|E2]; cbn [negb fst];
    [|split; [split; [intros _; left; right; left; exact E2 | reflexivity] | congruence]].
  destruct (Z.eqb_spec c02 0x02) as [E3|E3]; cbn [negb fst];
    [|split; [split; [intros _; left; right; right; left; exact E3 | reflexivity]
             | congruence]].
  destruct (Z.ltb_spec lo 0) as [E4|E4]; cbn [fst];
    [split; [split; [intros _; do 5 right; left; exact (rx_negative _ H4 E4)
                    | reflexivity] | congruence]|].
  destruct (Z.ltb_spec hi 0) as [E5|E5]; cbn [fst];
    [split; [split; [intros _; do 6 right; left; exact (rx_negative _ H5 E5)
                    | reflexivity] | congruence]|].
  pose proof (rx_nonneg _ H4 E4) as B4. pose proof (rx_nonneg _ H5 E5) as B5.
  clear H1 H4 H5. unfold is_byte in B4, B5. subst c02.
  destruct (Z.eqb_spec ck ((my + r2 + 0x02 + lo + hi) mod 256)) as [E6|E6]; cbn [negb fst].
  - split.
    + split; [discriminate|].
      assert (Hck : 0 <= ck < 256) by (rewrite E6; apply Z.mod_pos_bound; lia).
      intros [[H|[H|[H|H]]]|[H|[H|[H|[H|[H|[H|H]]]]]]];
        try contradiction; apply failed_negative in H; lia.
    + intros _. rewrite value_assembly by assumption. reflexivity.
  - split; [|congruence].
    split; [intros _; left; right; right; right; exact E6 | reflexivity].
Qed.

Lemma check_response_codes (reg : Z) (r : Response) (val_out : Z) :
  fst (check_response reg r val_out) = HITECD_ERR_CORRUPT
  \/ fst (check_response reg r val_out) = HITECD_OK.
Proof.
  unfold check_response.
  repeat match goal with
         | |- context [if ?c then _ else _] => destruct c; [left; reflexivity|]
         end.
  right; reflexivity.
Qed.

(** A whole [readReg], event by event.  When the line is HIGH at the
    first check the call ends after that single look at the line;
    otherwise it reads the response and looks at the line once more. *)
Lemma readReg_run (s : HitecDServo) (reg val_out : Z) (w : World) :
  exists e evs rg,
    e = EvStore (pinOutputRegister s)
                (uint8 (Z.lor (regs w (pinOutputRegister s)) (pinBitMask s)))
    /\ forallb bit_io evs = true
    /\ let req := EvCli :: e :: evs
                    ++ [EvDigitalWrite (pin s) LOW; EvSetSREG (SREG w);
                        EvDelayMs 14; EvPinMode (pin s) INPUT_PULLUP] in
       if line w (now w) then
         readReg hw s reg val_out w
         = ((HITECD_ERR_NO_SERVO, val_out),
            mkWorld (SREG w) (pinMode_regs hw (pin s) OUTPUT rg) (line w) (S (now w))
              (trace w ++ req ++ [EvDigitalRead (pin s) HIGH; EvDelayMs 2;
                                  EvPinMode (pin s) OUTPUT]))
       else
         exists rx n',
           forallb bit_io rx = true
           /\ snd (readReg hw s reg val_out w)
              = mkWorld (SREG w) (pinMode_regs hw (pin s) OUTPUT rg) (line w) (S n')
                  (trace w ++ req ++ EvDigitalRead (pin s) LOW :: EvCli :: rx
                     ++ [EvSetSREG (SREG w); EvDelayMs 1;
                         EvDigitalRead (pin s) (line w n');
                         EvPinMode (pin s) OUTPUT]).
Proof.
  destruct (readReg_request_run s reg w) as (e & evs & rg & E & He & Hio & _).
  exists e, evs, rg. split; [exact He|]. split; [exact Hio|].
  cbv zeta. cbv [readReg bind digitalRead observe delay pinMode emit ret].
  rewrite E. cbn [SREG regs line now trace].
  destruct (line w (now w)); cbn [Bool.eqb LOW negb].
  - f_equal. f_equal. cbn [HIGH].
    norm_trace. reflexivity.
  - match goal with
    | |- context [readReg_response hw s ?w'] =>
        destruct (readReg_response_run s w') as (r & rx & n' & -> & Hrx & _)
    end.
    cbn [SREG regs line now trace].
    exists rx, n'. split; [exact Hrx|].
    destruct (line w n'); cbn [Bool.eqb HIGH negb snd]; f_equal;
      norm_trace; reflexivity.
Qed.

(** C1, as the code has it.  When both line checks of a register read
    pass, the read returns Corrupt if and only if the echo byte differs
    from 0x69, the echoed register differs from the requested one, the
    constant byte differs from 0x02, the received checksum differs from
    (mystery + regEcho + 0x02 + valLo + valHi) mod 256, or one of the seven
    response bytes timed out or was received with a framing fault (its
    stop bit was not low); otherwise it succeeds with the value
    valLo | (valHi << 8). *)
Theorem readReg_corrupt_iff (s : HitecDServo) (reg val_out : Z) (w : World) :
  0 <= reg < 256 ->
  first_level hw s reg w = LOW ->
  second_level hw s reg w = HIGH ->
  let r := response hw s reg w in
  (fst (fst (readReg hw s reg val_out w)) = HITECD_ERR_CORRUPT <->
   validation_mismatch reg r \/
   Exists (fun b => timed_out b \/ framing_fault b) (response_list r))
  /\ (fst (fst (readReg hw s reg val_out w)) <> HITECD_ERR_CORRUPT ->
      fst (readReg hw s reg val_out w)
      = (HITECD_OK, Z.lor (low r) (Z.shiftl (high r) 8))).
Proof.
  intros Hreg H1 H2 r.
  rewrite readReg_result, H1, H2. cbn [Bool.eqb LOW HIGH negb].
  apply check_response_spec; [exact Hreg|].
  subst r. unfold response.
  destruct (readReg_response_run s (response_start hw s reg w))
    as (r & evs & n' & -> & _ & HF).
  exact HF.
Qed.

(** C3.  A register read returns NoServo exactly when the line is not
    LOW at the first check, and then it has looked at the line just that
    once: no response byte is read.  It returns NoResistor exactly when
    the first check passed and the line is not HIGH after the response,
    whatever the response bytes were.  Corrupt is returned only when both
    checks passed, and the three codes are distinct. *)
Theorem turnaround_faults (s : HitecDServo) (reg val_out : Z) (w : World) :
  let res := fst (fst (readReg hw s reg val_out w)) in
  (res = HITECD_ERR_NO_SERVO <-> first_level hw s reg w <> LOW)
  /\ (first_level hw s reg w <> LOW ->
      now (snd (readReg hw s reg val_out w)) = S (now w)
      /\ snd (fst (readReg hw s reg val_out w)) = val_out)
  /\ (res = HITECD_ERR_NO_RESISTOR <->
      first_level hw s reg w = LOW /\ second_level hw s reg w <> HIGH)
  /\ (res = HITECD_ERR_CORRUPT ->
      first_level hw s reg w = LOW /\ second_level hw s reg w = HIGH)
  /\ HITECD_ERR_NO_SERVO <> HITECD_ERR_CORRUPT
  /\ HITECD_ERR_NO_RESISTOR <> HITECD_ERR_CORRUPT
  /\ HITECD_ERR_NO_SERVO <> HITECD_ERR_NO_RESISTOR.
Proof.
  cbv zeta.
  pose proof (readReg_result s reg val_out w) as R.
  pose proof (check_response_codes reg (response hw s reg w) val_out) as C.
  destruct (readReg_run s reg val_out w) as (e & evs & rg & _ & _ & Run).
  cbv zeta in Run. rewrite <- (first_level_line s reg w) in Run.
  rewrite R. clear R.
  unfold HITECD_ERR_NO_SERVO, HITECD_ERR_NO_RESISTOR, HITECD_ERR_CORRUPT, HITECD_OK,
    LOW, HIGH in *.
  destruct (first_level hw s reg w); cbn [Bool.eqb negb fst snd].
  - rewrite Run. cbn [fst snd now].
    split; [split; [discriminate | reflexivity]|].
    split; [intros _; split; reflexivity|].
    split; [split; [discriminate | intros [? _]; discriminate]|].
    split; [discriminate|].
    split; [discriminate|]. split; discriminate.
  - clear Run.
    split; [split; [| intros H; contradiction H; reflexivity]|].
    { destruct (second_level hw s reg w); cbn [Bool.eqb negb fst];
        [destruct C as [C|C]; rewrite C|]; discriminate. }
    split; [intros H; contradiction H; reflexivity|].
    destruct (second_level hw s reg w); cbn [Bool.eqb negb fst].
    + split; [split; [destruct C as [C|C]; rewrite C; discriminate
                     | intros [_ H]; contradiction H; reflexivity]|].
      split; [intros _; split; reflexivity|].
      split; [discriminate|]. split; discriminate.
    + split; [split; [intros _; split; [reflexivity | discriminate] | reflexivity]|].
      split; [discriminate|].
      split; [discriminate|]. split; discriminate.
Qed.

(** Replacing one byte of a response that passes all checks makes it
    fail them. *)
Lemma check_response_single_corruption (reg : Z) (r : Response) (val_out : Z)
    (p : Position) (b : Z) :
  Forall is_byte (response_list r) ->
  fst (check_response reg r val_out) = HITECD_OK ->
  is_byte b -> b <> get_byte p r ->
  check_response reg (set_byte p b r) val_out = (HITECD_ERR_CORRUPT, val_out).
Proof.
  intros HF Hok Hb Hne. destruct r as [c69 my r2 c02 lo hi ck].
  unfold response_list in HF. rewrite Forall_7 in HF.
  unfold check_response in *.
  cbn [const_0x69 mystery reg2 const_0x02 low high checksum2] in *.
  unfold is_byte, HITECD_OK, HITECD_ERR_CORRUPT in *.
  rewrite land_0xFF in Hok.
  destruct HF as (H0 & H1 & H2 & H3 & H4 & H5 & H6).
  destruct (Z.eqb_spec c69 0x69) as [E0|E0]; cbn [negb fst] in Hok; [|discriminate].
  destruct (Z.ltb_spec my 0) as [E1|E1]; cbn [fst] in Hok; [discriminate|].
  destruct (Z.eqb_spec r2 reg) as [E2|E2]; cbn [negb fst] in Hok; [|discriminate].
  destruct (Z.eqb_spec c02 0x02) as [E3|E3]; cbn [negb fst] in Hok; [|discriminate].
  destruct (Z.ltb_spec lo 0) as [E4|E4]; cbn [fst] in Hok; [discriminate|].
  destruct (Z.ltb_spec hi 0) as [E5|E5]; cbn [fst] in Hok; [discriminate|].
  destruct (Z.eqb_spec ck ((my + r2 + c02 + lo + hi) mod 256)) as [E6|E6];
    cbn [negb fst] in Hok; [|discriminate].
  clear Hok. subst c69 c02.
  destruct p; cbn [set_byte get_byte const_0x69 mystery reg2 const_0x02 low high checksum2]
    in *; rewrite ?land_0xFF.
  - destruct (Z.eqb_spec b 0x69); [contradiction | reflexivity].
  - rewrite Z.eqb_refl. cbn [negb].
    destruct (Z.ltb_spec b 0); [lia|]. rewrite <- E2, Z.eqb_refl. cbn [negb].
    destruct (Z.ltb_spec lo 0); [lia|]. destruct (Z.ltb_spec hi 0); [lia|].
    destruct (Z.eqb_spec ck ((b + r2 + 2 + lo + hi) mod 256)) as [E|E]; [|reflexivity].
    exfalso. rewrite E6 in E. apply Hne.
    pose proof (Z.mod_pos_bound (my + r2 + 2 + lo + hi) 256).
    pose proof (Z.mod_pos_bound (b + r2 + 2 + lo + hi) 256).
    pose proof (Z.div_mod (my + r2 + 2 + lo + hi) 256).
    pose proof (Z.div_mod (b + r2 + 2 + lo + hi) 256).
    lia.
  - rewrite Z.eqb_refl. cbn [negb].
    destruct (Z.ltb_spec my 0); [lia|].
    destruct (Z.eqb_spec b reg); [congruence | reflexivity].
  - rewrite Z.eqb_refl. cbn [negb].
    destruct (Z.ltb_spec my 0); [lia|]. rewrite <- E2, Z.eqb_refl. cbn [negb].
    destruct (Z.eqb_spec b 0x02); [contradiction | reflexivity].
  - rewrite Z.eqb_refl. cbn [negb].
    destruct (Z.ltb_spec my 0); [lia|]. rewrite <- E2, Z.eqb_refl. cbn [negb].
    destruct (Z.ltb_spec b 0); [lia|]. destruct (Z.ltb_spec hi 0); [lia|].
    destruct (Z.eqb_spec ck ((my + r2 + 2 + b + hi) mod 256)) as [E|E]; [|reflexivity].
    exfalso. rewrite E6 in E. apply Hne.
    pose proof (Z.mod_pos_bound (my + r2 + 2 + lo + hi) 256).
    pose proof (Z.mod_pos_bound (my + r2 + 2 + b + hi) 256).
    pose proof (Z.div_mod (my + r2 + 2 + lo + hi) 256).
    pose proof (Z.div_mod (my + r2 + 2 + b + hi) 256).
    lia.
  - rewrite Z.eqb_refl. cbn [negb].
    destruct (Z.ltb_spec my 0); [lia|]. rewrite <- E2, Z.eqb_refl. cbn [negb].
    destruct (Z.ltb_spec lo 0); [lia|]. destruct (Z.ltb_spec b 0); [lia|].
    destruct (Z.eqb_spec ck ((my + r2 + 2 + lo + b) mod 256)) as [E|E]; [|reflexivity].
    exfalso. rewrite E6 in E. apply Hne.
    pose proof (Z.mod_pos_bound (my + r2 + 2 + lo + hi) 256).
    pose proof (Z.mod_pos_bound (my + r2 + 2 + lo + b) 256).
    pose proof (Z.div_mod (my + r2 + 2 + lo + hi) 256).
    pose proof (Z.div_mod (my + r2 + 2 + lo + b) 256).
    lia.
  - rewrite Z.eqb_refl. cbn [negb].
    destruct (Z.ltb_spec my 0); [lia|]. rewrite <- E2, Z.eqb_refl. cbn [negb].
    destruct (Z.ltb_spec lo 0); [lia|]. destruct (Z.ltb_spec hi 0); [lia|].
    destruct (Z.eqb_spec b ((my + r2 + 2 + lo + hi) mod 256)); [congruence | reflexivity].
Qed.

(** C4.  Take a seven-byte response that passes all the checks of a
    register read and change exactly one of its bytes to a different byte
    value: a read that receives the changed response returns Corrupt, and
    stores nothing. *)
Theorem single_byte_corruption_detected
    (s : HitecDServo) (reg val_out : Z) (w : World)
    (r : Response) (p : Position) (b : Z) :
  Forall is_byte (response_list r) ->
  fst (check_response reg r val_out) = HITECD_OK ->
  is_byte b -> b <> get_byte p r ->
  first_level hw s reg w = LOW ->
  second_level hw s reg w = HIGH ->
  response hw s reg w = set_byte p b r ->
  fst (readReg hw s reg val_out w) = (HITECD_ERR_CORRUPT, val_out).
Proof.
  intros HF Hok Hb Hne H1 H2 Hr.
  rewrite readReg_result, H1, H2, Hr. cbn [Bool.eqb LOW HIGH negb].
  apply check_response_single_corruption; assumption.
Qed.

(** *** Interrupt suppression *)

Lemma cli_disables (sreg : Z) : interrupts_enabled (Z.land sreg 127) = false.
Proof.
  unfold interrupts_enabled. rewrite Z.land_spec.
  change (Z.testbit 127 7) with false. apply andb_false_r.
Qed.

Lemma guarded_io (s0 cur : Z) (evs rest : list Event) :
  forallb bit_io evs = true -> interrupts_enabled cur = false ->
  guarded s0 cur (evs ++ rest) = guarded s0 cur rest.
Proof.
  intros Hio Hcur. induction evs as [|e evs IH]; [reflexivity|].
  cbn [forallb] in Hio. apply andb_prop in Hio. destruct Hio as [He Hio].
  destruct e; try discriminate He; cbn [app guarded]; rewrite Hcur, IH by exact Hio;
    reflexivity.
Qed.

(** C9.  Both register operations give the status register back as they
    found it, on every return.  In their event logs interrupts are
    switched off immediately before the first bit of the request goes
    out, every access to the pin at bit level happens with interrupts
    off, and every [delay] happens with the status register as it was at
    the call. *)
Theorem interrupts_scoped (s : HitecDServo) (reg val val_out : Z) (w : World) :
  let ww := snd (writeReg s reg val w) in
  let wr := snd (readReg hw s reg val_out w) in
  (SREG ww = SREG w /\ SREG wr = SREG w)
  /\ (guarded (SREG w) (SREG w) (events_since w ww) = true
      /\ guarded (SREG w) (SREG w) (events_since w wr) = true)
  /\ ((exists a v tl, events_since w ww = EvCli :: EvStore a v :: tl)
      /\ (exists a v tl, events_since w wr = EvCli :: EvStore a v :: tl)).
Proof.
  cbv zeta.
  destruct (writeReg_run s reg val w) as (e & evs & rg & Ew & He & Hio & _).
  destruct (readReg_run s reg val_out w) as (e' & evs' & rg' & He' & Hio' & Run).
  cbv zeta in Run. rewrite Ew. cbn [snd SREG].
  rewrite events_since_mk.
  assert (Gw : guarded (SREG w) (SREG w) (EvCli :: e :: evs ++ [EvSetSREG (SREG w)]) = true).
  { subst e. cbn [guarded]. rewrite cli_disables. cbn [negb andb].
    rewrite guarded_io by (exact Hio || apply cli_disables).
    cbn [guarded]. apply Z.eqb_refl. }
  destruct (line w (now w)).
  - rewrite Run. cbn [snd SREG]. rewrite events_since_mk.
    split; [split; reflexivity|]. split; [split; [exact Gw|]|].
    + subst e'. cbn [app guarded]. rewrite cli_disables. cbn [negb andb].
      rewrite <- app_assoc. rewrite guarded_io by (exact Hio' || apply cli_disables).
      cbn [app guarded]. rewrite !Z.eqb_refl. reflexivity.
    + split; [subst e | subst e']; cbn [app]; eauto.
  - destruct Run as (rx & n' & Hrx & Run). rewrite Run. cbn [SREG].
    rewrite events_since_mk.
    split; [split; reflexivity|]. split; [split; [exact Gw|]|].
    + subst e'. cbn [app guarded]. rewrite cli_disables. cbn [negb andb].
      rewrite <- app_assoc. rewrite guarded_io by (exact Hio' || apply cli_disables).
      cbn [app guarded]. rewrite !Z.eqb_refl. cbn [andb].
      rewrite guarded_io by (exact Hrx || apply cli_disables).
      cbn [guarded]. rewrite !Z.eqb_refl. reflexivity.
    + split; [subst e | subst e']; cbn [app]; eauto.
Qed.

(** *** Life cycle *)

(** C10.  After [attach(p)], [attached()] is true unless [p] is [-1];
    [attach(-1)] still configures the pin hardware ([pinMode],
    [digitalWrite]) but leaves [attached()] false, as after [detach()]. *)
Theorem attach_attached (p : Z) (s : HitecDServo) (w : World) :
  attached (fst (attach hw p s w)) = negb (p =? -1)
  /\ events_since w (snd (attach hw p s w)) = [EvPinMode p OUTPUT; EvDigitalWrite p LOW]
  /\ attached (fst (attach hw (-1) s w)) = false
  /\ attached (fst (attach hw (-1) s w)) = attached (detach s)
  /\ events_since w (snd (attach hw (-1) s w))
     = [EvPinMode (-1) OUTPUT; EvDigitalWrite (-1) LOW].
Proof.
  cbv [attach bind pinMode digitalWrite ret]. cbn [fst snd SREG regs line now trace].
  rewrite <- !app_assoc, !events_since_mk. cbn [app].
  repeat split; reflexivity.
Qed.

(** What [detach] and [attach] assign.  [detach()] only releases the pin:
    it sets [pin] to [-1] and leaves the cached model number and the three
    cached calibration raw angles as they were.  [attach(p)] binds the
    pin, its bit mask and its port registers, and leaves the cached
    members as they were as well. *)
Theorem detach_attach_keep_cache (p : Z) (s : HitecDServo) (w : World) :
  pin (detach s) = -1
  /\ cache (detach s) = cache s
  /\ pin (fst (attach hw p s w)) = p
  /\ pinBitMask (fst (attach hw p s w)) = uint8 (digitalPinToBitMask hw p)
  /\ pinInputRegister (fst (attach hw p s w))
     = portInputRegister hw (uint8 (digitalPinToPort hw p))
  /\ pinOutputRegister (fst (attach hw p s w))
     = portOutputRegister hw (uint8 (digitalPinToPort hw p))
  /\ cache (fst (attach hw p s w)) = cache s.
Proof.
  repeat split; reflexivity.
Qed.

(** [readModelNumber] never looks at [pin] before using the hardware:
    whatever the servo object, it logs events. *)
Lemma readModelNumber_touches_hardware (s : HitecDServo) (w : World) :
  events_since w (snd (readModelNumber hw s w)) <> [].
Proof.
  unfold readModelNumber. unfold bind at 1.
  destruct (readReg_run s 0 0 w) as (e & evs & rg & _ & _ & Run). cbv zeta in Run.
  destruct (readReg hw s 0 0 w) as [[res v] w'] eqn:E.
  assert (T : exists tl, trace w' = trace w ++ EvCli :: tl).
  { destruct (line w (now w)).
    - injection Run as _ _ Hw. rewrite Hw. cbn [trace app]. eauto.
    - destruct Run as (rx & n' & _ & Run). cbn [snd] in Run. subst w'.
      cbn [trace app]. eauto. }
  destruct T as (tl & T).
  assert (S : trace (snd ((if res <? 0 then ret res else ret (int16 v)) w')) = trace w')
    by (destruct (res <? 0); reflexivity).
  rewrite (events_since_app w _ (EvCli :: tl)) by (rewrite S; exact T).
  discriminate.
Qed.

(** *** Configuration writes *)

Lemma mem_In (x : Z) (l : list Z) : Config.mem x l = true <-> In x l.
Proof.
  unfold Config.mem. rewrite existsb_exists. split.
  - intros (y & Hy & E). apply Z.eqb_eq in E. subst y. exact Hy.
  - intros H. exists x. split; [exact H | apply Z.eqb_refl].
Qed.

Lemma angle_ok_legal (a : Z) : Config.angle_ok a = true <-> Config.legal_angle a.
Proof.
  unfold Config.angle_ok, Config.legal_angle.
  rewrite orb_true_iff, andb_true_iff, Z.eqb_eq, !Z.leb_le. tauto.
Qed.

Lemma validate_legal (c : Config.t) : Config.validate c = true <-> Config.legal c.
Proof.
  unfold Config.validate, Config.legal.
  rewrite !andb_true_iff, !mem_In, !angle_ok_legal, !Z.leb_le. tauto.
Qed.

(** C6.  [writeConfig] (with or without the model bypass) called with a
    configuration that has a field outside its legal set fails with
    Validation; the world is unchanged: no hardware access, no register
    write. *)
Theorem writeConfig_rejects_illegal
    (model_supported : Z -> bool) (factory_reset : list (Z * Z))
    (encode : Config.t -> list (Z * Z))
    (s : HitecDServo) (config : Config.t) (bypass : bool) (w : World) :
  ~ Config.legal config ->
  writeConfigUnknownModelThisMightDamageTheServo
    model_supported factory_reset encode s config bypass w = (Err Validation, w)
  /\ writeConfig model_supported factory_reset encode s config w = (Err Validation, w)
  /\ events_since w (snd (writeConfig model_supported factory_reset encode s config w)) = [].
Proof.
  intros Hbad.
  assert (V : Config.validate config = false).
  { destruct (Config.validate config) eqn:E; [|reflexivity].
    apply validate_legal in E. contradiction. }
  unfold writeConfig, writeConfigUnknownModelThisMightDamageTheServo.
  rewrite V. cbn [negb]. unfold ret. cbn [snd].
  split; [reflexivity|]. split; [reflexivity|].
  apply events_since_app. rewrite app_nil_r. reflexivity.
Qed.

(** *** Pulse width of a raw angle *)











End Correctness.

(** * The properties at concrete inputs *)

(** C1 as it was claimed, with time-outs as the only byte failure, does
    not hold.  The servo answers a read of register 0 with
    0x69 0x00 0x00 0x02, then a byte whose stop bit is violated, then
    0x00 0xFF: both line checks pass, the echo, the register and the
    constant match, the checksum 0xFF equals the sum modulo 256 (both with
    the [readByte] result [-3] for the damaged byte and with its data bits
    0xFD), no byte timed out, and yet the read returns Corrupt. *)
Lemma readReg_framing_fault_is_corrupt :
  let w := world_with framing_line in
  let r := response uno servo_on_pin_2 0 w in
  first_level uno servo_on_pin_2 0 w = LOW
  /\ second_level uno servo_on_pin_2 0 w = HIGH
  /\ r = mkResponse 0x69 0x00 0x00 0x02 HITECD_ERR_CORRUPT 0x00 0xFF
  /\ (0x00 + 0x00 + 0x02 + 0xFD + 0x00) mod 256 = 0xFF
  /\ fst (readReg uno servo_on_pin_2 0 0 w) = (HITECD_ERR_CORRUPT, 0)
  /\ ~ (fst (fst (readReg uno servo_on_pin_2 0 0 w)) = HITECD_ERR_CORRUPT <->
        validation_mismatch 0 r \/ Exists timed_out (response_list r)).
Proof.
  cbv zeta.
  assert (R : response uno servo_on_pin_2 0 (world_with framing_line)
              = mkResponse 0x69 0x00 0x00 0x02 HITECD_ERR_CORRUPT 0x00 0xFF)
    by (vm_compute; reflexivity).
  assert (C : fst (readReg uno servo_on_pin_2 0 0 (world_with framing_line))
              = (HITECD_ERR_CORRUPT, 0)) by (vm_compute; reflexivity).
  split; [vm_compute; reflexivity|]. split; [vm_compute; reflexivity|].
  split; [exact R|]. split; [reflexivity|]. split; [exact C|].
  rewrite R, C. cbn [fst]. intros [H _]. specialize (H eq_refl).
  unfold validation_mismatch, response_list, timed_out in H.
  cbn [const_0x69 mystery reg2 const_0x02 low high checksum2] in H.
  rewrite Exists_7 in H. unfold HITECD_ERR_CORRUPT, HITECD_ERR_NO_SERVO in H.
  change ((0 + 0 + 2 + -3 + 0) mod 256) with 255 in H.
  destruct H as [[H|[H|[H|H]]]|[H|[H|[H|[H|[H|[H|H]]]]]]];
    first [apply H; reflexivity | discriminate H].
Qed.

Lemma readReg_corrupt_iff_witness :
  0 <= 0 < 256
  /\ first_level uno servo_on_pin_2 0 (world_with d485_line) = LOW
  /\ second_level uno servo_on_pin_2 0 (world_with d485_line) = HIGH
  /\ (let r := response uno servo_on_pin_2 0 (world_with d485_line) in
      (fst (fst (readReg uno servo_on_pin_2 0 0 (world_with d485_line)))
       = HITECD_ERR_CORRUPT <->
       validation_mismatch 0 r \/
       Exists (fun b => timed_out b \/ framing_fault b) (response_list r))
      /\ (fst (fst (readReg uno servo_on_pin_2 0 0 (world_with d485_line)))
          <> HITECD_ERR_CORRUPT ->
          fst (readReg uno servo_on_pin_2 0 0 (world_with d485_line))
          = (HITECD_OK, Z.lor (low r) (Z.shiftl (high r) 8)))).
Proof.
  assert (H0 : 0 <= 0 < 256) by lia.
  assert (H1 : first_level uno servo_on_pin_2 0 (world_with d485_line) = LOW)
    by (vm_compute; reflexivity).
  assert (H2 : second_level uno servo_on_pin_2 0 (world_with d485_line) = HIGH)
    by (vm_compute; reflexivity).
  split; [exact H0|]. split; [exact H1|]. split; [exact H2|].
  exact (readReg_corrupt_iff uno servo_on_pin_2 0 0 (world_with d485_line) H0 H1 H2).
Defined.

Lemma writeReg_sends_frame_witness :
  valid_mask servo_on_pin_2 /\ 0 <= 0x0A < 256 /\ 0 <= 0x1234 < 65536
  /\ (let valLo := 0x1234 mod 256 in
      let valHi := 0x1234 / 256 in
      let checksum := (0x00 + 0x0A + 0x02 + valLo + valHi) mod 256 in
      sent_bytes servo_on_pin_2 (world_with (fun _ => LOW))
        (snd (writeReg servo_on_pin_2 0x0A 0x1234 (world_with (fun _ => LOW))))
      = Some [0x96; 0x00; 0x0A; 0x02; valLo; valHi; checksum]
      /\ (0x0A = 0x00 -> 0x1234 = 0x0000 -> checksum = 0x02)
      /\ (0x0A = 0x0A -> 0x1234 = 0x1234 ->
          checksum = Z.land (0x0A + 0x02 + 0x34 + 0x12) 0xFF)).
Proof.
  assert (Hm : valid_mask servo_on_pin_2) by (vm_compute; split; reflexivity).
  assert (Hr : 0 <= 0x0A < 256) by lia.
  assert (Hv : 0 <= 0x1234 < 65536) by lia.
  split; [exact Hm|]. split; [exact Hr|]. split; [exact Hv|].
  exact (writeReg_sends_frame servo_on_pin_2 0x0A 0x1234 (world_with (fun _ => LOW))
           Hm Hr Hv).
Defined.

Lemma single_byte_corruption_detected_witness :
  let r := mkResponse 0x69 0 0 0x02 229 1 232 in
  let w := world_with damaged_line in
  Forall is_byte (response_list r)
  /\ fst (check_response 0 r 0) = HITECD_OK
  /\ is_byte 228 /\ 228 <> get_byte P4 r
  /\ first_level uno servo_on_pin_2 0 w = LOW
  /\ second_level uno servo_on_pin_2 0 w = HIGH
  /\ response uno servo_on_pin_2 0 w = set_byte P4 228 r
  /\ fst (readReg uno servo_on_pin_2 0 0 w) = (HITECD_ERR_CORRUPT, 0).
Proof.
  cbv zeta.
  assert (HF : Forall is_byte (response_list (mkResponse 0x69 0 0 0x02 229 1 232)))
    by (unfold response_list, is_byte; cbn; repeat (apply Forall_cons; [lia|]);
        apply Forall_nil).
  assert (Hok : fst (check_response 0 (mkResponse 0x69 0 0 0x02 229 1 232) 0) = HITECD_OK)
    by (vm_compute; reflexivity).
  assert (Hb : is_byte 228) by (unfold is_byte; lia).
  assert (Hne : 228 <> get_byte P4 (mkResponse 0x69 0 0 0x02 229 1 232))
    by (cbn; lia).
  assert (H1 : first_level uno servo_on_pin_2 0 (world_with damaged_line) = LOW)
    by (vm_compute; reflexivity).
  assert (H2 : second_level uno servo_on_pin_2 0 (world_with damaged_line) = HIGH)
    by (vm_compute; reflexivity).
  assert (Hr : response uno servo_on_pin_2 0 (world_with damaged_line)
               = set_byte P4 228 (mkResponse 0x69 0 0 0x02 229 1 232))
    by (vm_compute; reflexivity).
  repeat (split; [assumption|]).
  exact (single_byte_corruption_detected uno servo_on_pin_2 0 0
           (world_with damaged_line) (mkResponse 0x69 0 0 0x02 229 1 232) P4 228
           HF Hok Hb Hne H1 H2 Hr).
Defined.

(** C5 on the code: after [detach()], [readModelNumber()] does not fail
    with NotAttached.  It sends the request through the port registers
    bound earlier, calls [digitalWrite], [pinMode] and [digitalRead] with
    pin [-1], and returns what the exchange yields: with a line that stays
    low, NoResistor.  Whatever the servo object and the line,
    [readModelNumber] logs hardware events. *)
Theorem readModelNumber_after_detach :
  let s := detach servo_on_pin_2 in
  let w := world_with (fun _ => LOW) in
  attached s = false
  /\ fst (readModelNumber uno_1MHz s w) = HITECD_ERR_NO_RESISTOR
  /\ fst (readModelNumber uno_1MHz s w) <> HITECD_ERR_NOT_ATTACHED
  /\ firstn 2 (events_since w (snd (readModelNumber uno_1MHz s w))) = [EvCli; EvStore 43 4]
  /\ In (EvPinMode (-1) INPUT_PULLUP) (events_since w (snd (readModelNumber uno_1MHz s w)))
  /\ (forall hw s' w', events_since w' (snd (readModelNumber hw (detach s') w')) <> []).
Proof.
  cbv zeta.
  assert (E : fst (readModelNumber uno_1MHz (detach servo_on_pin_2) (world_with (fun _ => LOW)))
              = HITECD_ERR_NO_RESISTOR) by (vm_compute; reflexivity).
  split; [reflexivity|]. split; [exact E|]. split; [rewrite E; discriminate|].
  split; [vm_compute; reflexivity|].
  split.
  - assert (P : existsb (fun e => match e with
                                  | EvPinMode (-1) INPUT_PULLUP => true
                                  | _ => false
                                  end)
                  (events_since (world_with (fun _ => LOW))
                     (snd (readModelNumber uno_1MHz (detach servo_on_pin_2)
                             (world_with (fun _ => LOW))))) = true)
      by (vm_compute; reflexivity).
    apply existsb_exists in P. destruct P as (e & He & Hm).
    destruct e as [| | p m | | | | | |]; try discriminate Hm.
    destruct p as [|p|p]; try discriminate Hm.
    destruct p; try discriminate Hm. destruct m; try discriminate Hm. exact He.
  - intros hw s' w'. apply readModelNumber_touches_hardware.
Qed.

(** C8 on the code: the header declares the cache members and an
    [attach] that returns a result code, but the implementation never
    writes them.  After [detach()] the cached members still hold the model
    number and the calibration they held before, so two detached objects
    differ in them; and [attach] on the same pin in the same world does
    not establish them: it leaves two objects with the different caches
    they had. *)
Lemma detach_attach_do_not_reset_cache :
  let w := world_with (fun _ => LOW) in
  cache (detach d485_on_pin_2) = (485, 3381, 8192, 13002)
  /\ cache (detach servo_on_pin_2) = (0, 0, 0, 0)
  /\ cache (detach d485_on_pin_2) <> cache (detach servo_on_pin_2)
  /\ cache (fst (attach uno 2 (detach d485_on_pin_2) w)) = (485, 3381, 8192, 13002)
  /\ cache (fst (attach uno 2 (detach servo_on_pin_2) w)) = (0, 0, 0, 0)
  /\ cache (fst (attach uno 2 (detach d485_on_pin_2) w))
     <> cache (fst (attach uno 2 (detach servo_on_pin_2) w)).
Proof.
  cbv zeta. repeat (split; [vm_compute; (reflexivity || discriminate)|]).
  vm_compute. discriminate.
Qed.

Lemma writeConfig_rejects_illegal_witness :
  ~ Config.legal speed_15_config
  /\ (writeConfigUnknownModelThisMightDamageTheServo
        (fun m => m =? 485) [] (fun _ => []) servo_on_pin_2 speed_15_config false
        (world_with (fun _ => LOW))
      = (Err Validation, world_with (fun _ => LOW))
      /\ writeConfig (fun m => m =? 485) [] (fun _ => []) servo_on_pin_2 speed_15_config
           (world_with (fun _ => LOW))
         = (Err Validation, world_with (fun _ => LOW))
      /\ events_since (world_with (fun _ => LOW))
           (snd (writeConfig (fun m => m =? 485) [] (fun _ => []) servo_on_pin_2
                   speed_15_config (world_with (fun _ => LOW)))) = []).
Proof.
  assert (H : ~ Config.legal speed_15_config).
  { unfold Config.legal, speed_15_config. cbn.
    intros (_ & Hs & _). repeat (destruct Hs as [Hs|Hs]; [lia|]). exact Hs. }
  split; [exact H|].
  exact (writeConfig_rejects_illegal (fun m => m =? 485) [] (fun _ => [])
           servo_on_pin_2 speed_15_config false (world_with (fun _ => LOW)) H).
Defined.



(** * Further properties of the library *)

Section More.

Variable hw : Platform.

(** ** Receiving one byte, look by look *)

Lemma wait_start_S (s : HitecDServo) (fuel : nat) (tc : Z) (w : World) :
  wait_start (S fuel) s tc w
  = let w1 := mkWorld (SREG w) (regs w) (line w) (S (now w))
                (trace w ++ [EvSample (pinInputRegister s) (line w (now w))]) in
    if line w (now w) then (true, w1)
    else if tc - 1 =? 0 then (false, w1)
         else wait_start fuel s (tc - 1) w1.
Proof.
  cbn [wait_start]. cbv [bind pin_input observe ret]. cbv zeta.
  destruct (line w (now w)); [reflexivity|].
  destruct (tc - 1 =? 0); reflexivity.
Qed.

Lemma wait_start_low (s : HitecDServo) (n : nat) :
  forall w : World,
    (forall k, (k <= n)%nat -> line w (k + now w) = LOW) ->
    exists evs,
      wait_start (S n) s (Z.of_nat (S n)) w
      = (false, mkWorld (SREG w) (regs w) (line w) (S n + now w) (trace w ++ evs))
      /\ forallb rx_io evs = true.
Proof.
  induction n as [|n IH]; intros w L.
  - pose proof (L 0%nat ltac:(lia)) as L0. cbn [Nat.add] in L0. unfold LOW in L0.
    rewrite wait_start_S. cbv zeta.
    rewrite L0. change (Z.of_nat 1 - 1 =? 0) with true. cbv iota.
    eexists [_]. split; reflexivity.
  - pose proof (L 0%nat ltac:(lia)) as L0. cbn [Nat.add] in L0. unfold LOW in L0.
    rewrite wait_start_S. cbv zeta.
    rewrite L0.
    replace (Z.of_nat (S (S n)) - 1) with (Z.of_nat (S n)) by lia.
    destruct (Z.eqb_spec (Z.of_nat (S n)) 0); [lia|].
    match goal with
    | |- context [wait_start (S n) s _ ?w'] => destruct (IH w') as (evs & E & Hio)
    end.
    { cbn [line now]. intros k Hk. rewrite Nat.add_succ_r. apply (L (S k)). lia. }
    rewrite E. cbn [SREG regs line now trace].
    eexists (_ :: evs). rewrite <- app_assoc. cbn [app].
    split; [do 2 f_equal; first [reflexivity | lia] | exact Hio].
Qed.

Lemma wait_start_high (s : HitecDServo) (n : nat) :
  forall (j : nat) (w : World),
    (j <= n)%nat ->
    (forall k, (k < j)%nat -> line w (k + now w) = LOW) ->
    line w (j + now w) = HIGH ->
    exists evs,
      wait_start (S n) s (Z.of_nat (S n)) w
      = (true, mkWorld (SREG w) (regs w) (line w) (S j + now w) (trace w ++ evs))
      /\ forallb rx_io evs = true.
Proof.
  induction n as [|n IH]; intros j w Hj L H.
  - assert (j = 0%nat) by lia. subst j. cbn [Nat.add] in H. unfold HIGH in H.
    rewrite wait_start_S. cbv zeta.
    rewrite H. eexists [_]. split; reflexivity.
  - rewrite wait_start_S. cbv zeta.
    destruct j as [|j].
    + cbn [Nat.add] in H. unfold HIGH in H. rewrite H.
      eexists [_]. split; reflexivity.
    + pose proof (L 0%nat ltac:(lia)) as L0. cbn [Nat.add] in L0. unfold LOW in L0.
      rewrite L0.
      replace (Z.of_nat (S (S n)) - 1) with (Z.of_nat (S n)) by lia.
      destruct (Z.eqb_spec (Z.of_nat (S n)) 0); [lia|].
      match goal with
      | |- context [wait_start (S n) s _ ?w'] =>
          destruct (IH j w' ltac:(lia)) as (evs & E & Hio)
      end.
      { cbn [line now]. intros k Hk. rewrite Nat.add_succ_r. apply (L (S k)). lia. }
      { cbn [line now]. rewrite Nat.add_succ_r. exact H. }
      rewrite E. cbn [SREG regs line now trace].
      eexists (_ :: evs). rewrite <- app_assoc. cbn [app].
      split; [do 2 f_equal; first [reflexivity | lia] | exact Hio].
Qed.

Lemma rx_value_range (levels : list bool) :
  forall val m, 0 <= val < 256 -> 0 <= rx_value levels val m < 256.
Proof.
  induction levels as [|l levels IH]; intros val m Hval; [exact Hval|].
  cbn [rx_value]. apply IH. destruct (negb l); [|exact Hval].
  apply Z.mod_pos_bound. lia.
Qed.

Lemma first_high (f : nat -> bool) (n : nat) :
  (forall k, (k < n)%nat -> f k = false)
  \/ (exists j, (j < n)%nat /\ f j = true /\ forall i, (i < j)%nat -> f i = false).
Proof.
  induction n as [|n [IH|(j & Hj & Hf & Hlow)]].
  - left. intros k Hk. lia.
  - destruct (f n) eqn:E.
    + right. exists n. split; [lia|]. split; [exact E|]. exact IH.
    + left. intros k Hk. destruct (Nat.eq_dec k n) as [->|]; [exact E|].
      apply IH. lia.
  - right. exists j. split; [lia|]. split; [exact Hf | exact Hlow].
Qed.

Lemma nth_looks (w : World) (from n k : nat) :
  (k < n)%nat -> nth k (looks w from n) LOW = line w (k + from + now w).
Proof.
  intros Hk. unfold looks.
  rewrite (nth_indep _ LOW (line w (0 + from + now w))) by (rewrite length_map, length_seq; exact Hk).
  rewrite (map_nth (fun k => line w (k + from + now w)) (seq 0 n) 0%nat k).
  rewrite seq_nth by exact Hk. reflexivity.
Qed.

(** [readByte] when the start bit comes at the [j]-th look: the state it
    returns with its result. *)
Lemma readByte_start_run (s : HitecDServo) (w : World) (j : nat) :
  (j < Z.to_nat (timeout_count hw))%nat ->
  (forall k, (k < j)%nat -> line w (k + now w) = LOW) ->
  line w (j + now w) = HIGH ->
  exists w',
    readByte hw s w
    = ((if line w (j + 9 + now w) then HITECD_ERR_CORRUPT
        else rx_value (looks w (S j) 8) 0 1), w')
    /\ now w' = (j + 10 + now w)%nat.
Proof.
  intros Hj L H.
  unfold readByte. unfold bind at 1.
  destruct (Z.to_nat (timeout_count hw)) as [|n] eqn:E; [lia|].
  replace (timeout_count hw) with (Z.of_nat (S n)) by lia.
  destruct (wait_start_high s n j w ltac:(lia) L H) as (evs & -> & _).
  cbn [negb].
  cbv [bind DELAY_US_COMPENSATED emit]. cbn [SREG regs line now trace].
  match goal with
  | |- context [readByte_loop 9%nat s 0 1 ?w'] =>
      destruct (readByte_loop_value s 9 (looks w (S j) 8) 0 1 w' eq_refl)
        as (w1 & E1 & Hl & Hn)
  end.
  { cbn [line now]. intros k Hk. change (length (looks w (S j) 8)) with 8%nat in Hk.
    rewrite nth_looks by exact Hk. f_equal. lia. }
  rewrite E1. cbn [line now] in Hl, Hn.
  change (length (looks w (S j) 8)) with 8%nat in Hn.
  cbv [pin_input observe]. cbn [SREG regs line now trace]. rewrite Hl, Hn.
  replace (8 + (S j + now w))%nat with (j + 9 + now w)%nat by lia.
  destruct (line w (j + 9 + now w)); cbv [ret]; eexists;
    (split; [reflexivity | cbn [now]; lia]).
Qed.

(** Once the line is seen HIGH, at the [j]-th look ([j] below the
    time-out count) after staying LOW before, [readByte] makes nine more
    looks: eight data levels and the stop level.  It returns
    [HITECD_ERR_CORRUPT] when the stop level is HIGH and otherwise the
    byte whose bit [i] is set exactly when data level [i] is LOW. *)
Theorem readByte_after_start (s : HitecDServo) (w : World) (j : nat) :
  (j < Z.to_nat (timeout_count hw))%nat ->
  (forall k, (k < j)%nat -> line w (k + now w) = LOW) ->
  line w (j + now w) = HIGH ->
  fst (readByte hw s w)
  = (if line w (j + 9 + now w) then HITECD_ERR_CORRUPT
     else rx_value (looks w (S j) 8) 0 1)
  /\ 0 <= rx_value (looks w (S j) 8) 0 1 < 256
  /\ now (snd (readByte hw s w)) = (j + 10 + now w)%nat.
Proof.
  intros Hj L H.
  destruct (readByte_start_run s w j Hj L H) as (w' & -> & Hn). cbn [fst snd].
  split; [reflexivity|]. split; [|exact Hn].
  apply rx_value_range. lia.
Qed.

(** With a positive time-out count, [readByte] returns
    [HITECD_ERR_NO_SERVO] exactly when the line is LOW at each of its
    first [timeout_count] looks; it then has made exactly that many
    looks. *)
Theorem readByte_no_servo_iff (s : HitecDServo) (w : World) :
  0 < timeout_count hw ->
  (fst (readByte hw s w) = HITECD_ERR_NO_SERVO <->
   forall k, (k < Z.to_nat (timeout_count hw))%nat -> line w (k + now w) = LOW)
  /\ (fst (readByte hw s w) = HITECD_ERR_NO_SERVO ->
      now (snd (readByte hw s w)) = (Z.to_nat (timeout_count hw) + now w)%nat).
Proof.
  intros Ht.
  assert (Low : (forall k, (k < Z.to_nat (timeout_count hw))%nat ->
                       line w (k + now w) = LOW) ->
                fst (readByte hw s w) = HITECD_ERR_NO_SERVO
                /\ now (snd (readByte hw s w))
                   = (Z.to_nat (timeout_count hw) + now w)%nat).
  { intros L.
    assert (R : exists w', readByte hw s w = (HITECD_ERR_NO_SERVO, w')
                           /\ now w' = (Z.to_nat (timeout_count hw) + now w)%nat).
    { unfold readByte. unfold bind at 1.
      destruct (Z.to_nat (timeout_count hw)) as [|n] eqn:E; [lia|].
      replace (timeout_count hw) with (Z.of_nat (S n)) by lia.
      destruct (wait_start_low s n w) as (evs & -> & _).
      { intros k Hk. apply L. lia. }
      cbn [negb]. cbv [ret]. eexists. split; reflexivity. }
    destruct R as (w' & -> & Hn). split; [reflexivity | exact Hn]. }
  destruct (first_high (fun k => line w (k + now w)) (Z.to_nat (timeout_count hw)))
    as [L|(j & Hj & Hf & Hlow)].
  - destruct (Low L) as [R N]. split; [split; [intros _; exact L | intros _; exact R]|].
    intros _. exact N.
  - assert (Hr : 0 <= rx_value (looks w (S j) 8) 0 1 < 256)
      by (apply rx_value_range; lia).
    assert (Ne : fst (readByte hw s w) <> HITECD_ERR_NO_SERVO).
    { destruct (readByte_start_run s w j Hj Hlow Hf) as (w' & -> & _). cbn [fst].
      unfold HITECD_ERR_NO_SERVO, HITECD_ERR_CORRUPT.
      destruct (line w (j + 9 + now w)); lia. }
    split; [split|]; [intros R'; contradiction | | intros R'; contradiction].
    intros L. rewrite (L j Hj) in Hf. discriminate Hf.
Qed.

(** ** What is sent is what is received *)

(** The ten levels [writeByte] puts on the pin for a byte, shown to
    [readByte] at its next ten looks, make it return that byte. *)
Theorem transport_round_trip (s s' : HitecDServo) (val : Z) (w w2 : World) :
  valid_mask s -> 0 <= val < 256 -> 0 < timeout_count hw ->
  (forall k, (k < 10)%nat ->
     line w2 (k + now w2)
     = nth k (tx_levels s (events_since w (snd (writeByte s val w)))) LOW) ->
  fst (readByte hw s' w2) = val
  /\ now (snd (readByte hw s' w2)) = (10 + now w2)%nat.
Proof.
  intros Hm Hval Ht L.
  destruct (writeByte_run s val w) as (e & evs & rg & E & _ & _ & _ & Hlv).
  rewrite E in L. cbn [snd] in L. rewrite events_since_mk, (Hlv Hm) in L.
  apply readByte_receives_frame; assumption.
Qed.

(** ** Outcomes of a register read *)

Lemma readReg_ok_or_negative (s : HitecDServo) (reg val_out : Z) (w : World) :
  (fst (fst (readReg hw s reg val_out w)) = HITECD_OK
   /\ 0 <= snd (fst (readReg hw s reg val_out w)) < 65536)
  \/ fst (fst (readReg hw s reg val_out w)) < 0.
Proof.
  rewrite readReg_result.
  destruct (negb (Bool.eqb (first_level hw s reg w) LOW)); cbn [fst snd];
    [right; reflexivity|].
  destruct (negb (Bool.eqb (second_level hw s reg w) HIGH)); cbn [fst snd];
    [right; reflexivity|].
  unfold check_response.
  repeat match goal with
         | |- context [if ?c then (HITECD_ERR_CORRUPT, val_out) else _] =>
             destruct c; [cbn [fst snd]; right; reflexivity|]
         end.
  cbn [fst snd]. left. split; [reflexivity|].
  unfold uint16. apply Z.mod_pos_bound. lia.
Qed.

(** [readReg] returns one of four codes; it stores through [val_out] only
    when it returns [HITECD_OK], and then a 16-bit value. *)
Theorem readReg_outcomes (s : HitecDServo) (reg val_out : Z) (w : World) :
  let res := fst (fst (readReg hw s reg val_out w)) in
  let val := snd (fst (readReg hw s reg val_out w)) in
  (res = HITECD_OK /\ 0 <= val < 65536)
  \/ ((res = HITECD_ERR_NO_SERVO \/ res = HITECD_ERR_NO_RESISTOR
       \/ res = HITECD_ERR_CORRUPT) /\ val = val_out).
Proof.
  cbv zeta. rewrite readReg_result.
  destruct (negb (Bool.eqb (first_level hw s reg w) LOW)); cbn [fst snd]; [auto|].
  destruct (negb (Bool.eqb (second_level hw s reg w) HIGH)); cbn [fst snd]; [auto|].
  unfold check_response.
  repeat match goal with
         | |- context [if ?c then (HITECD_ERR_CORRUPT, val_out) else _] =>
             destruct c; [cbn [fst snd]; auto|]
         end.
  cbn [fst snd]. left. split; [reflexivity|].
  unfold uint16. apply Z.mod_pos_bound. lia.
Qed.

(** ** The port register under a transmission *)

Lemma uint8_set_invariant (v m : Z) :
  0 <= v < 256 ->
  0 <= uint8 (Z.lor v m) < 256
  /\ Z.land (uint8 (Z.lor v m)) (Z.lnot m) = Z.land v (Z.lnot m).
Proof.
  intros Hv. unfold uint8. split; [apply Z.mod_pos_bound; lia|].
  apply Z.bits_inj'. intros n Hn. rewrite !Z.land_spec, Z.lnot_spec by lia.
  destruct (Z.ltb_spec n 8).
  - change 256 with (2 ^ 8). rewrite Z.mod_pow2_bits_low by lia.
    rewrite Z.lor_spec. destruct (Z.testbit v n), (Z.testbit m n); reflexivity.
  - change 256 with (2 ^ 8). rewrite Z.mod_pow2_bits_high by lia.
    rewrite <- (Z.mod_small v 256) by lia. change 256 with (2 ^ 8).
    rewrite Z.mod_pow2_bits_high by lia. reflexivity.
Qed.

Lemma uint8_clear_invariant (v m : Z) :
  0 <= v < 256 ->
  0 <= uint8 (Z.land v (Z.lnot m)) < 256
  /\ uint8 (Z.land v (Z.lnot m)) = Z.land v (Z.lnot m).
Proof.
  intros Hv. unfold uint8. split; [apply Z.mod_pos_bound; lia|].
  apply Z.bits_inj'. intros n Hn.
  destruct (Z.ltb_spec n 8).
  - change 256 with (2 ^ 8). rewrite Z.mod_pow2_bits_low by lia. reflexivity.
  - change 256 with (2 ^ 8). rewrite Z.mod_pow2_bits_high by lia.
    rewrite Z.land_spec.
    rewrite <- (Z.mod_small v 256) by lia. change 256 with (2 ^ 8).
    rewrite Z.mod_pow2_bits_high by lia. reflexivity.
Qed.

Lemma land_lnot_idem (v m : Z) :
  Z.land (Z.land v (Z.lnot m)) (Z.lnot m) = Z.land v (Z.lnot m).
Proof. rewrite <- Z.land_assoc, Z.land_diag. reflexivity. Qed.

(** The transmit loop only stores and waits; it touches no register but
    the one behind [pinOutputRegister] and, when that holds an 8-bit
    value, keeps it 8 bits wide and changes no bit outside [pinBitMask]. *)
Lemma writeByte_loop_port (s : HitecDServo) (val : Z) (fuel : nat) :
  forall (m : Z) (w : World),
    exists evs rg,
      writeByte_loop fuel s val m w
      = (tt, mkWorld (SREG w) rg (line w) (now w) (trace w ++ evs))
      /\ forallb tx_io evs = true
      /\ (forall a, a <> pinOutputRegister s -> rg a = regs w a)
      /\ (0 <= regs w (pinOutputRegister s) < 256 ->
          0 <= rg (pinOutputRegister s) < 256
          /\ Z.land (rg (pinOutputRegister s)) (Z.lnot (pinBitMask s))
             = Z.land (regs w (pinOutputRegister s)) (Z.lnot (pinBitMask s))).
Proof.
  induction fuel as [|fuel IH]; intros m w.
  - exists [], (regs w). cbn [writeByte_loop forallb]. rewrite app_nil_r.
    unfold ret. rewrite <- world_eta. auto.
  - cbn [writeByte_loop]. destruct (m =? 0x100).
    + exists [], (regs w). cbn [forallb]. rewrite app_nil_r.
      unfold ret. rewrite <- world_eta. auto.
    + destruct (negb (Z.land val m =? 0));
        cbv [bind out_set out_clear load store DELAY_US_COMPENSATED emit];
        cbn [SREG regs line now trace];
        match goal with
        | |- context [writeByte_loop fuel s val ?m' ?w'] =>
            destruct (IH m' w') as (evs & rg & E & Hio & Hoth & Hinv); rewrite E
        end;
        cbn [SREG regs line now trace] in *; rewrite Z.eqb_refl in Hinv;
        eexists (_ :: _ :: evs), rg; rewrite <- !app_assoc;
        (split; [reflexivity|]); (split; [exact Hio|]);
        (split; [intros a Ha; rewrite (Hoth a Ha);
                 destruct (Z.eqb_spec a (pinOutputRegister s)); [contradiction|reflexivity]|]);
        intros Hv.
      * destruct (uint8_clear_invariant _ (pinBitMask s) Hv) as [Rc Ic].
        destruct (Hinv Rc) as [Hr Hi]. split; [exact Hr|].
        rewrite Hi, Ic. apply land_lnot_idem.
      * destruct (uint8_set_invariant _ (pinBitMask s) Hv) as [Rs Is].
        destruct (Hinv Rs) as [Hr Hi]. split; [exact Hr|].
        rewrite Hi. exact Is.
Qed.

Lemma writeByte_port (s : HitecDServo) (val : Z) (w : World) :
  exists evs rg,
    writeByte s val w
    = (tt, mkWorld (SREG w) rg (line w) (now w) (trace w ++ evs))
    /\ forallb tx_io evs = true
    /\ (forall a, a <> pinOutputRegister s -> rg a = regs w a)
    /\ (0 <= regs w (pinOutputRegister s) < 256 ->
        rg (pinOutputRegister s)
        = Z.land (regs w (pinOutputRegister s)) (Z.lnot (pinBitMask s))).
Proof.
  cbv [writeByte bind out_set load store DELAY_US_COMPENSATED emit];
    cbn [SREG regs line now trace].
  match goal with
  | |- context [writeByte_loop 9%nat s val 1 ?w'] =>
      destruct (writeByte_loop_port s val 9 1 w')
        as (evs & rg & E & Hio & Hoth & Hinv); rewrite E
  end.
  cbn [SREG regs line now trace] in *. rewrite Z.eqb_refl in Hinv.
  cbv [out_clear bind load store DELAY_US_COMPENSATED emit];
    cbn [SREG regs line now trace].
  eexists (_ :: _ :: evs ++ [_; _]), _. rewrite <- !app_assoc. cbn [app].
  split; [reflexivity|]. split; [|split].
  - cbn [forallb tx_io andb]. rewrite forallb_app, Hio. reflexivity.
  - intros a Ha. cbv beta.
    destruct (Z.eqb_spec a (pinOutputRegister s)); [contradiction|].
    rewrite (Hoth a Ha).
    destruct (Z.eqb_spec a (pinOutputRegister s)); [contradiction|reflexivity].
  - intros Hv. cbv beta. rewrite Z.eqb_refl.
    destruct (uint8_set_invariant _ (pinBitMask s) Hv) as [Rs Is].
    destruct (Hinv Rs) as [Hr Hi].
    destruct (uint8_clear_invariant _ (pinBitMask s) Hr) as [_ Ic].
    rewrite Ic, Hi. exact Is.
Qed.

Lemma land_lnot_range (v m : Z) :
  0 <= v < 256 -> 0 <= Z.land v (Z.lnot m) < 256.
Proof.
  intros Hv. destruct (uint8_clear_invariant v m Hv) as [R E].
  rewrite E in R. exact R.
Qed.

Lemma writeByte_port_kept (s : HitecDServo) (val : Z) (w w' : World) :
  0 <= regs w (pinOutputRegister s) < 256 ->
  snd (writeByte s val w) = w' ->
  port_kept s w w' /\ 0 <= regs w' (pinOutputRegister s) < 256.
Proof.
  intros Hv E.
  destruct (writeByte_port s val w) as (evs & rg & E' & _ & Hoth & Hr).
  specialize (Hr Hv).
  rewrite E' in E. cbn [snd] in E. subst w'. unfold port_kept. cbn [line now regs].
  split; [auto|]. rewrite Hr. apply land_lnot_range. exact Hv.
Qed.

Lemma port_kept_trans (s : HitecDServo) (w w1 w2 : World) :
  port_kept s w w1 -> port_kept s w1 w2 -> port_kept s w w2.
Proof.
  intros (L1 & N1 & O1 & R1) (L2 & N2 & O2 & R2). unfold port_kept.
  split; [congruence|]. split; [congruence|]. split.
  - intros a Ha. rewrite (O2 a Ha). apply O1. exact Ha.
  - rewrite R2, R1. apply land_lnot_idem.
Qed.

(** A register write changes no register but the one behind
    [pinOutputRegister] and no bit of it but the pin's, which it leaves
    clear, that is the line idle LOW; it never looks at the line. *)
Theorem writeReg_port_effect (s : HitecDServo) (reg val : Z) (w : World) :
  0 <= regs w (pinOutputRegister s) < 256 ->
  let w' := snd (writeReg s reg val w) in
  (forall a, a <> pinOutputRegister s -> regs w' a = regs w a)
  /\ regs w' (pinOutputRegister s)
     = Z.land (regs w (pinOutputRegister s)) (Z.lnot (pinBitMask s))
  /\ level_of (pinBitMask s) (regs w' (pinOutputRegister s)) = LOW
  /\ line w' = line w /\ now w' = now w.
Proof.
  intros Hv. cbv zeta.
  assert (K : port_kept s w (snd (writeReg s reg val w))).
  { cbv [writeReg bind get_SREG cli set_SREG]. cbn [SREG regs line now trace].
    match goal with
    | |- context [writeByte s ?b ?w0] =>
        destruct (writeByte s b w0) as [[] w1] eqn:E;
          apply (f_equal snd) in E; cbn [snd] in E;
          apply writeByte_port_kept in E; [|cbn [regs]; exact Hv];
          destruct E as [K R]
    end.
    assert (K' : port_kept s w w1) by exact K. clear K.
    do 6 match goal with
         | |- context [writeByte s ?b w1] =>
             let w2 := fresh "w" in
             destruct (writeByte s b w1) as [[] w2] eqn:E;
               apply (f_equal snd) in E; cbn [snd] in E;
               apply writeByte_port_kept in E; [|exact R];
               destruct E as [K R'];
               pose proof (port_kept_trans s w w1 w2 K' K) as K'';
               clear K' K R; rename K'' into K'; rename R' into R;
               clear w1; rename w2 into w1
         end.
    cbn [snd]. exact K'. }
  destruct K as (L & N & O & R).
  split; [exact O|]. split; [exact R|]. split; [|split; [exact L | exact N]].
  rewrite R. unfold level_of, LOW.
  assert (Z.land (Z.land (regs w (pinOutputRegister s)) (Z.lnot (pinBitMask s)))
            (pinBitMask s) = 0) as ->; [|reflexivity].
  apply Z.bits_inj'. intros n Hn. rewrite !Z.land_spec, Z.lnot_spec, Z.bits_0 by lia.
  destruct (Z.testbit (pinBitMask s) n), (Z.testbit (regs w (pinOutputRegister s)) n);
    reflexivity.
Qed.

(** ** The hardware accesses of a register read, in order *)

Ltac flatten_trace :=
  repeat (first [rewrite <- app_assoc | progress cbn [app SREG regs line now trace]]).

Lemma wait_start_rx (s : HitecDServo) (fuel : nat) :
  forall (tc : Z) (w : World), exists b evs n',
    wait_start fuel s tc w
    = (b, mkWorld (SREG w) (regs w) (line w) n' (trace w ++ evs))
    /\ forallb rx_io evs = true.
Proof.
  induction fuel as [|fuel IH]; intros tc w.
  - exists false, [], (now w). cbn [wait_start forallb]. rewrite app_nil_r.
    unfold ret. rewrite <- world_eta. auto.
  - rewrite wait_start_S. cbv zeta. destruct (line w (now w)).
    + exists true. eexists [_], _. split; reflexivity.
    + destruct (tc - 1 =? 0).
      * exists false. eexists [_], _. split; reflexivity.
      * match goal with
        | |- context [wait_start fuel s ?tc' ?w'] =>
            destruct (IH tc' w') as (b & evs & n' & E & Hio); rewrite E
        end.
        cbn [SREG regs line now trace].
        exists b. eexists (_ :: evs), n'. rewrite <- app_assoc.
        split; [reflexivity | exact Hio].
Qed.

Lemma readByte_loop_rx (s : HitecDServo) (fuel : nat) :
  forall (val m : Z) (w : World), exists r evs n',
    readByte_loop fuel s val m w
    = (r, mkWorld (SREG w) (regs w) (line w) n' (trace w ++ evs))
    /\ forallb rx_io evs = true.
Proof.
  induction fuel as [|fuel IH]; intros val m w.
  - exists val, [], (now w). cbn [readByte_loop forallb]. rewrite app_nil_r.
    unfold ret. rewrite <- world_eta. auto.
  - cbn [readByte_loop]. destruct (m =? 0x100).
    + exists val, [], (now w). cbn [forallb]. rewrite app_nil_r.
      unfold ret. rewrite <- world_eta. auto.
    + cbv [bind pin_input observe DELAY_US_COMPENSATED emit];
        cbn [SREG regs line now trace].
      match goal with
      | |- context [readByte_loop fuel s ?val' ?m' ?w'] =>
          destruct (IH val' m' w') as (r & evs & n' & E & Hio); rewrite E
      end.
      cbn [SREG regs line now trace].
      exists r. eexists (_ :: _ :: evs), n'. rewrite <- !app_assoc.
      split; [reflexivity | exact Hio].
Qed.

Lemma readByte_rx (s : HitecDServo) (w : World) :
  exists r evs n',
    readByte hw s w
    = (r, mkWorld (SREG w) (regs w) (line w) n' (trace w ++ evs))
    /\ forallb rx_io evs = true.
Proof.
  unfold readByte. unfold bind at 1.
  destruct (wait_start_rx s (Z.to_nat (timeout_count hw)) (timeout_count hw) w)
    as (b & evs & n' & -> & Hio).
  destruct b; cbn [negb].
  - cbv [bind DELAY_US_COMPENSATED emit]; cbn [SREG regs line now trace].
    match goal with
    | |- context [readByte_loop 9%nat s 0 1 ?w'] =>
        destruct (readByte_loop_rx s 9 0 1 w') as (r & evs1 & n1 & -> & Hio1)
    end.
    cbv [pin_input observe]; cbn [SREG regs line now trace].
    destruct (line w n1); eexists; eexists (evs ++ _ :: evs1 ++ [_]), _;
      (split; [unfold ret; f_equal; f_equal; flatten_trace; reflexivity|]);
      rewrite forallb_app; cbn [forallb rx_io]; rewrite forallb_app, Hio, Hio1;
      reflexivity.
  - exists HITECD_ERR_NO_SERVO, evs, n'. unfold ret. split; [reflexivity | exact Hio].
Qed.

Lemma readReg_response_rx (s : HitecDServo) (w : World) :
  exists r rx n',
    readReg_response hw s w
    = (r, mkWorld (SREG w) (regs w) (line w) n'
                  (trace w ++ EvCli :: rx ++ [EvSetSREG (SREG w); EvDelayMs 1]))
    /\ forallb rx_io rx = true.
Proof.
  cbv [readReg_response bind get_SREG cli set_SREG delay emit];
    cbn [SREG regs line now trace].
  do 7 match goal with
       | |- context [readByte hw s ?w0] =>
           let r := fresh "r" in
           let evs := fresh "evs" in
           let n := fresh "n" in
           let Hio := fresh "Hio" in
           destruct (readByte_rx s w0) as (r & evs & n & -> & Hio);
           cbn [SREG regs line now trace] in *
       end.
  eexists. exists (evs ++ evs0 ++ evs1 ++ evs2 ++ evs3 ++ evs4 ++ evs5). eexists.
  split.
  - unfold ret. f_equal. f_equal. flatten_trace. reflexivity.
  - rewrite !forallb_app, Hio, Hio0, Hio1, Hio2, Hio3, Hio4, Hio5. reflexivity.
Qed.

Lemma readReg_request_tx (s : HitecDServo) (reg : Z) (w : World) :
  exists tx rg,
    readReg_request hw s reg w
    = (tt, mkWorld (SREG w) rg (line w) (now w)
                   (trace w ++ EvCli :: tx
                      ++ [EvDigitalWrite (pin s) LOW; EvSetSREG (SREG w);
                          EvDelayMs 14; EvPinMode (pin s) INPUT_PULLUP]))
    /\ forallb tx_io tx = true
    /\ (valid_mask s ->
        tx_levels s tx
        = frame 0x96 ++ frame 0x00 ++ frame reg ++ frame 0x00
          ++ frame (uint8 (Z.land (0x00 + reg + 0x00) 0xFF))).
Proof.
  destruct (readReg_request_run hw s reg w) as (e & evs & rg & E & _ & _ & Hlv).
  assert (T : exists tx rg',
             readReg_request hw s reg w
             = (tt, mkWorld (SREG w) rg' (line w) (now w)
                      (trace w ++ EvCli :: tx
                         ++ [EvDigitalWrite (pin s) LOW; EvSetSREG (SREG w);
                             EvDelayMs 14; EvPinMode (pin s) INPUT_PULLUP]))
             /\ forallb tx_io tx = true).
  { cbv [readReg_request bind get_SREG cli set_SREG digitalWrite delay pinMode emit];
      cbn [SREG regs line now trace].
    do 5 match goal with
         | |- context [writeByte s ?b ?w0] =>
             let evs := fresh "tx" in
             let rg := fresh "rg" in
             let Hio := fresh "Hio" in
             destruct (writeByte_port s b w0) as (evs & rg & -> & Hio & _ & _);
             cbn [SREG regs line now trace] in *
         end.
    exists (tx ++ tx0 ++ tx1 ++ tx2 ++ tx3). eexists. split.
    - f_equal. f_equal. flatten_trace. reflexivity.
    - rewrite !forallb_app, Hio, Hio0, Hio1, Hio2, Hio3. reflexivity. }
  destruct T as (tx & rg' & E' & Htx).
  assert (tx = e :: evs) as ->.
  { rewrite E in E'. injection E' as _ E'.
    apply app_inv_head in E'. injection E' as E'.
    change (e :: evs ++ [EvDigitalWrite (pin s) LOW; EvSetSREG (SREG w);
                         EvDelayMs 14; EvPinMode (pin s) INPUT_PULLUP])
      with ((e :: evs) ++ [EvDigitalWrite (pin s) LOW; EvSetSREG (SREG w);
                           EvDelayMs 14; EvPinMode (pin s) INPUT_PULLUP]) in E'.
    apply app_inv_tail in E'. symmetry. exact E'. }
  exists (e :: evs), rg. split; [exact E|]. split; [exact Htx | exact Hlv].
Qed.

Lemma tx_levels_rx (s : HitecDServo) (rx : list Event) :
  forallb rx_io rx = true -> tx_levels s rx = [].
Proof.
  induction rx as [|e rx IH]; intros H; [reflexivity|].
  cbn [forallb] in H. apply andb_prop in H. destruct H as [He H].
  unfold tx_levels in *. cbn [flat_map]. rewrite (IH H).
  destruct e; try discriminate He; reflexivity.
Qed.

(** Every register read accesses the hardware in this order: interrupts
    off, the request (stores to the port register and waits only), line
    driven LOW, interrupts restored, 14 ms, pin released as
    [INPUT_PULLUP], one [digitalRead].  If that reads HIGH: 2 ms, pin
    back to [OUTPUT].  Otherwise: interrupts off, the response (looks at
    the line and waits only), interrupts restored, 1 ms, a second
    [digitalRead], pin back to [OUTPUT]. *)
Theorem readReg_access_pattern (s : HitecDServo) (reg val_out : Z) (w : World) :
  exists tx,
    forallb tx_io tx = true
    /\ let req := EvCli :: tx
                    ++ [EvDigitalWrite (pin s) LOW; EvSetSREG (SREG w);
                        EvDelayMs 14; EvPinMode (pin s) INPUT_PULLUP] in
       if line w (now w) then
         events_since w (snd (readReg hw s reg val_out w))
         = req ++ [EvDigitalRead (pin s) HIGH; EvDelayMs 2; EvPinMode (pin s) OUTPUT]
       else
         exists rx n',
           forallb rx_io rx = true
           /\ events_since w (snd (readReg hw s reg val_out w))
              = req ++ EvDigitalRead (pin s) LOW :: EvCli :: rx
                  ++ [EvSetSREG (SREG w); EvDelayMs 1;
                      EvDigitalRead (pin s) (line w n');
                      EvPinMode (pin s) OUTPUT].
Proof.
  destruct (readReg_request_tx s reg w) as (tx & rg & E & Htx & _).
  exists tx. split; [exact Htx|].
  cbv zeta. cbv [readReg bind digitalRead observe delay pinMode emit ret].
  rewrite E. cbn [SREG regs line now trace].
  destruct (line w (now w)); cbn [Bool.eqb LOW negb].
  - cbn [snd]. flatten_trace. rewrite events_since_mk. reflexivity.
  - match goal with
    | |- context [readReg_response hw s ?w'] =>
        destruct (readReg_response_rx s w') as (r & rx & n' & -> & Hrx)
    end.
    cbn [SREG regs line now trace].
    exists rx, n'. split; [exact Hrx|].
    destruct (line w n'); cbn [Bool.eqb HIGH negb snd];
      flatten_trace; rewrite events_since_mk; reflexivity.
Qed.

(** A register read puts exactly the five bytes 0x96, 0x00, reg, 0x00,
    reg on the wire (the checksum of a read request is the register
    itself), whatever the servo answers. *)
Theorem readReg_sends_request (s : HitecDServo) (reg val_out : Z) (w : World) :
  valid_mask s -> 0 <= reg < 256 ->
  sent_bytes s w (snd (readReg hw s reg val_out w))
  = Some [0x96; 0x00; reg; 0x00; reg].
Proof.
  intros Hm Hreg.
  destruct (readReg_request_tx s reg w) as (tx & rg & E & _ & Hlv).
  assert (T : exists tail,
             events_since w (snd (readReg hw s reg val_out w))
             = EvCli :: tx ++ tail
             /\ tx_levels s tail = []).
  { cbv [readReg bind digitalRead observe delay pinMode emit ret].
    rewrite E. cbn [SREG regs line now trace].
    destruct (line w (now w)); cbn [Bool.eqb LOW negb].
    - cbn [snd]. flatten_trace. rewrite events_since_mk.
      eexists. split; [reflexivity | reflexivity].
    - match goal with
      | |- context [readReg_response hw s ?w'] =>
          destruct (readReg_response_rx s w') as (r & rx & n' & -> & Hrx)
      end.
      cbn [SREG regs line now trace].
      exists ([EvDigitalWrite (pin s) LOW; EvSetSREG (SREG w); EvDelayMs 14;
               EvPinMode (pin s) INPUT_PULLUP; EvDigitalRead (pin s) false; EvCli]
              ++ rx ++ [EvSetSREG (SREG w); EvDelayMs 1;
                        EvDigitalRead (pin s) (line w n');
                        EvPinMode (pin s) OUTPUT]).
      split.
      + destruct (line w n'); cbn [Bool.eqb HIGH negb snd];
          flatten_trace; rewrite events_since_mk; reflexivity.
      + rewrite !tx_levels_app, (tx_levels_rx s rx Hrx). reflexivity. }
  unfold sent_bytes. destruct T as (tail & -> & Htail).
  change (EvCli :: tx ++ tail) with ([EvCli] ++ tx ++ tail).
  rewrite !tx_levels_app, (Hlv Hm), Htail. cbn [tx_levels flat_map app].
  rewrite uint8_land_0xFF.
  replace ((0 + reg + 0) mod 256) with reg by (rewrite Z.mod_small; lia).
  rewrite <- !app_assoc.
  rewrite !uart_decode_frame by lia.
  reflexivity.
Qed.

(** ** The model number *)



(** [readModelNumber] hands the error codes of the register read through
    unchanged.  On success it returns the 16-bit register value as an
    [int]: values below 32768 as they are, values from 32768 on lowered
    by 65536, hence negative, as the error codes are. *)
Theorem readModelNumber_result (s : HitecDServo) (w : World) :
  let res := fst (fst (readReg hw s 0x00 0 w)) in
  let val := snd (fst (readReg hw s 0x00 0 w)) in
  (res <> HITECD_OK -> fst (readModelNumber hw s w) = res)
  /\ (res = HITECD_OK -> val < 32768 -> fst (readModelNumber hw s w) = val)
  /\ (res = HITECD_OK -> 32768 <= val ->
      fst (readModelNumber hw s w) = val - 65536
      /\ fst (readModelNumber hw s w) < 0).
Proof.
  cbv zeta. pose proof (readReg_ok_or_negative s 0x00 0 w) as C.
  unfold readModelNumber. unfold bind.
  destruct (readReg hw s 0 0 w) as [[res val] w']. cbn [fst snd] in *.
  unfold HITECD_OK in *.
  destruct C as [[-> Hval]|Hres].
  - change (1 <? 0) with false. cbv iota. unfold ret. cbn [fst]. unfold int16.
    split; [intros H; contradiction H; reflexivity|].
    split; intros _ Hv.
    + rewrite Z.mod_small by lia. lia.
    + assert (E : (val + 32768) mod 65536 = val - 32768).
      { replace (val + 32768) with (val - 32768 + 1 * 65536) by lia.
        rewrite Z.mod_add by lia. apply Z.mod_small. lia. }
      rewrite E. lia.
  - assert (Hneg : (res <? 0) = true) by (apply Z.ltb_lt; lia).
    rewrite Hneg. unfold ret. cbn [fst].
    split; [reflexivity|]. split; intros ->; lia.
Qed.

End More.

(** * Properties of the command line *)

Section CommandLineProperties.

Import CommandLine.

Variable PRINT_IF_EMPTY : Z.
Variable QUARTERS : Z.

Lemma typed_len (cs : list Z) (stale : Z -> Z) :
  rawInputLen (typed cs stale) = Z.of_nat (length cs).
Proof. reflexivity. Qed.

(** Reading the typed line at an offset into its tail. *)
Lemma typed_at (pre l : list Z) (stale : Z -> Z) (j : nat) :
  (j < length l)%nat ->
  rawInput (typed (pre ++ l) stale) (Z.of_nat (length pre + j)) = nth j l 0.
Proof.
  intros Hj. unfold typed. cbn [rawInput]. rewrite length_app.
  destruct (Z.leb_spec 0 (Z.of_nat (length pre + j))); [|lia].
  destruct (Z.ltb_spec (Z.of_nat (length pre + j))
              (Z.of_nat (length pre + length l))); [|lia].
  cbn [andb]. rewrite Nat2Z.id, app_nth2 by lia. f_equal. lia.
Qed.

Lemma typed_at_head (pre : list Z) (c : Z) (l : list Z) (stale : Z -> Z) :
  rawInput (typed (pre ++ c :: l) stale) (Z.of_nat (length pre)) = c.
Proof.
  pose proof (typed_at pre (c :: l) stale 0 ltac:(cbn [length]; lia)) as H.
  rewrite Nat.add_0_r in H. exact H.
Qed.

Lemma is_digit_dec (c : Z) :
  {is_digit c} + {~ is_digit c}.
Proof.
  unfold is_digit.
  destruct (Z_le_dec (ch "0") c), (Z_le_dec c (ch "9")); [left; lia | right; lia ..].
Qed.

Lemma digit_test (c : Z) :
  ((ch "0" <=? c) && (c <=? ch "9")) = true <-> is_digit c.
Proof.
  unfold is_digit. rewrite andb_true_iff, !Z.leb_le. tauto.
Qed.

(** The digit loop runs over the leading digits and stops at the first
    other character or at the end of the line. *)
Lemma scan_digits_prefix (rest : list Z) (stale : Z -> Z) (ds : list Z) :
  forall (pre : list Z) (acc : Z) (fuel : nat),
    Forall is_digit ds ->
    (length ds <= fuel)%nat ->
    match rest with [] => True | c :: _ => ~ is_digit c end ->
    scan_digits fuel (typed (pre ++ ds ++ rest) stale) (Z.of_nat (length pre)) acc
    = (Z.of_nat (length pre + length ds), fold_left step16 ds acc).
Proof.
  induction ds as [|d ds IH]; intros pre acc fuel Hds Hfuel Hrest.
  - cbn [app length fold_left]. rewrite Nat.add_0_r.
    destruct fuel as [|fuel]; [reflexivity|]. cbn [scan_digits].
    rewrite typed_len. destruct rest as [|c rest].
    + rewrite app_nil_r. destruct (Z.ltb_spec (Z.of_nat (length pre))
                                     (Z.of_nat (length pre))); [lia|reflexivity].
    + rewrite typed_at_head.
      destruct (Z.ltb_spec (Z.of_nat (length pre))
                  (Z.of_nat (length (pre ++ c :: rest)))); [|reflexivity].
      cbn [andb]. destruct ((ch "0" <=? c) && (c <=? ch "9")) eqn:E; [|reflexivity].
      apply digit_test in E. contradiction.
  - destruct fuel as [|fuel]; [cbn [length] in Hfuel; lia|].
    cbn [scan_digits]. rewrite typed_len.
    change ((d :: ds) ++ rest) with (d :: ds ++ rest). rewrite typed_at_head.
    inversion Hds as [|? ? Hd Hds']; subst.
    destruct (Z.ltb_spec (Z.of_nat (length pre))
                (Z.of_nat (length (pre ++ d :: ds ++ rest))));
      [|rewrite length_app in *; cbn [length] in *; lia].
    cbn [andb]. apply digit_test in Hd. rewrite Hd.
    replace (pre ++ d :: ds ++ rest) with ((pre ++ [d]) ++ ds ++ rest)
      by (rewrite <- app_assoc; reflexivity).
    replace (Z.of_nat (length pre) + 1) with (Z.of_nat (length (pre ++ [d])))
      by (rewrite length_app; cbn [length]; lia).
    rewrite IH; [|exact Hds' | cbn [length] in Hfuel; lia | exact Hrest].
    rewrite length_app. cbn [length fold_left]. unfold step16 at 3.
    f_equal. f_equal. lia.
Qed.

Lemma decimal_snoc (ds : list Z) (d : Z) :
  decimal (ds ++ [d]) = decimal ds * 10 + (d - ch "0").
Proof. unfold decimal. rewrite fold_left_app. reflexivity. Qed.

Lemma decimal_nonneg (ds : list Z) : Forall is_digit ds -> 0 <= decimal ds.
Proof.
  induction ds as [|d ds IH] using rev_ind; intros H; [unfold decimal; cbn; lia|].
  apply Forall_app in H. destruct H as [Hds Hd]. inversion Hd as [|? ? Hd' _]; subst.
  rewrite decimal_snoc. unfold is_digit in Hd'. specialize (IH Hds). lia.
Qed.

(** Without overflow the 16-bit accumulation is the decimal value. *)
Lemma fold16_decimal (ds : list Z) :
  Forall is_digit ds -> decimal ds <= 32767 -> fold_left step16 ds 0 = decimal ds.
Proof.
  induction ds as [|d ds IH] using rev_ind; intros H Hb; [reflexivity|].
  apply Forall_app in H. destruct H as [Hds Hd]. inversion Hd as [|? ? Hd' _]; subst.
  rewrite decimal_snoc in *. pose proof (decimal_nonneg ds Hds) as Hn.
  unfold is_digit in Hd'.
  rewrite fold_left_app. cbn [fold_left]. rewrite IH by (exact Hds || lia).
  unfold step16, int16. rewrite Z.mod_small by lia. lia.
Qed.

Lemma digit_prefix (cs : list Z) :
  exists ds rest,
    cs = ds ++ rest /\ Forall is_digit ds
    /\ match rest with [] => True | c :: _ => ~ is_digit c end.
Proof.
  induction cs as [|c cs (ds & rest & E & Hds & Hrest)].
  - exists [], []. auto.
  - destruct (is_digit_dec c) as [Hc|Hc].
    + exists (c :: ds), rest. subst cs. split; [reflexivity|]. split; [|exact Hrest].
      constructor; assumption.
    + exists [], (c :: cs). split; [reflexivity|]. split; [constructor | exact Hc].
Qed.

(** Without the QUARTERS flag, [parseNumber] accepts exactly the
    non-empty strings of decimal digits, whatever their length, and
    prints nothing when it accepts; when the number is at most 32767,
    [*valOut] is that number. *)
Theorem parseNumber_plain (cs : list Z) (stale : Z -> Z) (valOut0 flags : Z) :
  has_flag flags QUARTERS = false ->
  let p := parseNumber PRINT_IF_EMPTY QUARTERS (typed cs stale) valOut0 flags in
  (ok p = true <-> cs <> [] /\ Forall is_digit cs)
  /\ (ok p = true ->
      printed p = [] /\ (decimal cs <= 32767 -> valOut p = decimal cs)).
Proof.
  intros Hq. cbv zeta. unfold parseNumber. rewrite Hq, typed_len.
  destruct cs as [|c cs].
  - cbn [length Z.of_nat Z.eqb ok].
    split; [split; [discriminate | intros [H _]; contradiction H; reflexivity]
           | discriminate].
  - destruct (Z.eqb_spec (Z.of_nat (length (c :: cs))) 0) as [E|_];
      [cbn [length] in E; lia|].
    pose proof (typed_at_head [] c cs stale) as H0. cbn [app length Z.of_nat] in H0.
    rewrite H0.
    destruct (Z.eqb_spec c (ch "-")) as [->|Hc].
    + cbn [ok]. split; [|discriminate].
      split; [discriminate|]. intros [_ H]. inversion H as [|? ? Hd _]; subst.
      unfold is_digit in Hd. vm_compute in Hd. destruct Hd as [Hd _].
      contradiction Hd; reflexivity.
    + destruct (digit_prefix (c :: cs)) as (ds & rest & E & Hds & Hrest).
      rewrite E.
      pose proof (scan_digits_prefix rest stale ds [] 0 (length (ds ++ rest)) Hds
                    ltac:(rewrite length_app; lia) Hrest) as S.
      cbn [app length Z.of_nat Nat.add] in S.
      rewrite Nat2Z.id, S.
      destruct rest as [|r rest].
      * rewrite app_nil_r in *. rewrite Z.eqb_refl. cbn [negb ok printed valOut].
        split; [split; [intros _; split; [rewrite <- E; discriminate | exact Hds]
                       | reflexivity]|].
        intros _. split; [reflexivity|]. intros Hb. apply fold16_decimal; assumption.
      * destruct (Z.eqb_spec (Z.of_nat (length ds))
                    (Z.of_nat (length (ds ++ r :: rest)))) as [El|_];
          [rewrite length_app in El; cbn [length] in El; lia|].
        cbn [negb ok]. split; [|discriminate].
        split; [discriminate|]. intros [_ H].
        apply Forall_app in H. destruct H as [_ H].
        inversion H as [|? ? Hr _]; subst. contradiction.
Qed.

Lemma int16_small (x : Z) : -32768 <= x <= 32767 -> int16 x = x.
Proof. intros H. unfold int16. rewrite Z.mod_small by lia. lia. Qed.

Lemma typed_at1 (pre l : list Z) (stale : Z -> Z) :
  (1 < length l)%nat ->
  rawInput (typed (pre ++ l) stale) (Z.of_nat (length pre) + 1) = nth 1 l 0.
Proof.
  intros H. rewrite <- (typed_at pre l stale 1 H). f_equal. lia.
Qed.

Lemma typed_at2 (pre l : list Z) (stale : Z -> Z) :
  (2 < length l)%nat ->
  rawInput (typed (pre ++ l) stale) (Z.of_nat (length pre) + 1 + 1) = nth 2 l 0.
Proof.
  intros H. rewrite <- (typed_at pre l stale 2 H). f_equal. lia.
Qed.

(** The zero loop runs to the end of a line that ends in zeros. *)
Lemma skip_zeros_run (stale : Z -> Z) (k : nat) :
  forall (pre : list Z) (fuel : nat),
    (k <= fuel)%nat ->
    skip_zeros fuel (typed (pre ++ repeat (ch "0") k) stale) (Z.of_nat (length pre))
    = Z.of_nat (length pre + k).
Proof.
  induction k as [|k IH]; intros pre fuel Hfuel.
  - cbn [repeat]. rewrite app_nil_r, Nat.add_0_r.
    destruct fuel as [|fuel]; [reflexivity|]. cbn [skip_zeros]. rewrite typed_len.
    destruct (Z.ltb_spec (Z.of_nat (length pre)) (Z.of_nat (length pre)));
      [lia | reflexivity].
  - destruct fuel as [|fuel]; [lia|]. cbn [skip_zeros repeat].
    rewrite typed_len, typed_at_head, Z.eqb_refl.
    destruct (Z.ltb_spec (Z.of_nat (length pre))
                (Z.of_nat (length (pre ++ ch "0" :: repeat (ch "0") k))));
      [|rewrite length_app in *; cbn [length] in *; lia].
    cbn [andb].
    replace (pre ++ ch "0" :: repeat (ch "0") k)
      with ((pre ++ [ch "0"]) ++ repeat (ch "0") k)
      by (rewrite <- app_assoc; reflexivity).
    replace (Z.of_nat (length pre) + 1) with (Z.of_nat (length (pre ++ [ch "0"])))
      by (rewrite length_app; cbn [length]; lia).
    rewrite IH by lia. rewrite length_app. cbn [length]. f_equal. lia.
Qed.

Ltac char_tests :=
  repeat match goal with
         | |- context [ch ?a =? ch ?b] =>
             let v := eval vm_compute in (ch a =? ch b) in
             change (ch a =? ch b) with v
         end.

Ltac in_line :=
  match goal with
  | |- context [Z.ltb ?a ?b] =>
      destruct (Z.ltb_spec a b);
      [|exfalso; rewrite ?length_app, ?repeat_length in *; cbn [length] in *; lia]
  end.

(** A fraction the code knows, followed by zeros, is consumed to the end
    of the line and adds its quarters. *)
Lemma quarters_fraction (ds frac : list Z) (q : Z) (k : nat) (stale : Z -> Z) (v : Z) :
  In (frac, q) fractions ->
  0 <= v -> 4 * v + q <= 32767 ->
  quarters (typed (ds ++ frac ++ repeat (ch "0") k) stale) (Z.of_nat (length ds)) v
  = (Some (Z.of_nat (length (ds ++ frac ++ repeat (ch "0") k))), 4 * v + q).
Proof.
  intros Hin Hv Hb. unfold fractions in Hin. cbn [In] in Hin.
  assert (Hskip : forall pre, skip_zeros
                    (Z.to_nat (Z.of_nat (length (pre ++ repeat (ch "0") k))))
                    (typed (pre ++ repeat (ch "0") k) stale) (Z.of_nat (length pre))
                  = Z.of_nat (length (pre ++ repeat (ch "0") k))).
  { intros pre. rewrite skip_zeros_run by (rewrite Nat2Z.id, length_app, repeat_length; lia).
    rewrite length_app, repeat_length. reflexivity. }
  destruct Hin as [H|[H|[H|[H|[]]]]]; injection H as <- <-;
    unfold quarters; rewrite typed_len;
    cbn [app]; rewrite typed_at_head, Z.eqb_refl.
  - in_line. cbn [andb].
    rewrite typed_at1 by (cbn [length]; lia). cbn [nth]. rewrite Z.eqb_refl.
    in_line. cbn [andb].
    replace (Z.of_nat (length ds) + 1 + 1)
      with (Z.of_nat (length (ds ++ [ch "."; ch "0"])))
      by (rewrite length_app; cbn [length]; lia).
    replace (ds ++ ch "." :: ch "0" :: repeat (ch "0") k)
      with ((ds ++ [ch "."; ch "0"]) ++ repeat (ch "0") k)
      by (rewrite <- app_assoc; reflexivity).
    rewrite Hskip, int16_small by lia. f_equal. lia.
  - in_line. cbn [andb].
    rewrite typed_at1 by (cbn [length]; lia). cbn [nth]. char_tests.
    rewrite andb_false_r.
    rewrite typed_at2 by (cbn [length]; lia). cbn [nth]. char_tests.
    in_line. cbn [andb].
    replace (Z.of_nat (length ds) + 1 + 2)
      with (Z.of_nat (length (ds ++ [ch "."; ch "2"; ch "5"])))
      by (rewrite length_app; cbn [length]; lia).
    replace (ds ++ ch "." :: ch "2" :: ch "5" :: repeat (ch "0") k)
      with ((ds ++ [ch "."; ch "2"; ch "5"]) ++ repeat (ch "0") k)
      by (rewrite <- app_assoc; reflexivity).
    rewrite Hskip, (int16_small (v * 4)), int16_small by lia. f_equal. lia.
  - in_line. cbn [andb].
    rewrite typed_at1 by (cbn [length]; lia). cbn [nth]. char_tests.
    rewrite !andb_false_r. cbn [andb].
    in_line. cbn [andb].
    replace (Z.of_nat (length ds) + 1 + 1)
      with (Z.of_nat (length (ds ++ [ch "."; ch "5"])))
      by (rewrite length_app; cbn [length]; lia).
    replace (ds ++ ch "." :: ch "5" :: repeat (ch "0") k)
      with ((ds ++ [ch "."; ch "5"]) ++ repeat (ch "0") k)
      by (rewrite <- app_assoc; reflexivity).
    rewrite Hskip, (int16_small (v * 4)), int16_small by lia. f_equal. lia.
  - in_line. cbn [andb].
    rewrite typed_at1 by (cbn [length]; lia). cbn [nth]. char_tests.
    rewrite !andb_false_r. cbn [andb].
    rewrite typed_at2 by (cbn [length]; lia). cbn [nth]. char_tests.
    in_line. cbn [andb].
    replace (Z.of_nat (length ds) + 1 + 2)
      with (Z.of_nat (length (ds ++ [ch "."; ch "7"; ch "5"])))
      by (rewrite length_app; cbn [length]; lia).
    replace (ds ++ ch "." :: ch "7" :: ch "5" :: repeat (ch "0") k)
      with ((ds ++ [ch "."; ch "7"; ch "5"]) ++ repeat (ch "0") k)
      by (rewrite <- app_assoc; reflexivity).
    rewrite Hskip, (int16_small (v * 4)), int16_small by lia. f_equal. lia.
Qed.

Lemma first_char (c : Z) (l : list Z) (stale : Z -> Z) :
  rawInput (typed (c :: l) stale) 0 = c.
Proof. exact (typed_at_head [] c l stale). Qed.

Lemma digit_not_minus (c : Z) : is_digit c -> (c =? ch "-") = false.
Proof.
  unfold is_digit. intros [H _]. apply Z.eqb_neq. intros ->.
  vm_compute in H. contradiction H; reflexivity.
Qed.

(** With the QUARTERS flag, [parseNumber] accepts a non-empty string of
    digits with four times its value, and a (possibly empty) string of
    digits followed by .0, .25, .5 or .75 and any number of zeros with
    four times the value of the digits plus 0, 1, 2 or 3, provided the
    result is at most 32767; it prints nothing. *)
Theorem parseNumber_quarters (ds : list Z) (stale : Z -> Z) (valOut0 flags : Z) :
  has_flag flags QUARTERS = true ->
  Forall is_digit ds ->
  (ds <> [] -> 4 * decimal ds <= 32767 ->
   parseNumber PRINT_IF_EMPTY QUARTERS (typed ds stale) valOut0 flags
   = mkParse true (4 * decimal ds) [])
  /\ (forall frac q k,
        In (frac, q) fractions -> 4 * decimal ds + q <= 32767 ->
        parseNumber PRINT_IF_EMPTY QUARTERS
          (typed (ds ++ frac ++ repeat (ch "0") k) stale) valOut0 flags
        = mkParse true (4 * decimal ds + q) []).
Proof.
  intros Hq Hds. pose proof (decimal_nonneg ds Hds) as Hn. split.
  - intros Hne Hb. unfold parseNumber. rewrite Hq, typed_len.
    destruct ds as [|d ds']; [contradiction Hne; reflexivity|].
    destruct (Z.eqb_spec (Z.of_nat (length (d :: ds'))) 0) as [E|_];
      [cbn [length] in E; lia|].
    rewrite first_char, digit_not_minus by (inversion Hds; assumption).
    pose proof (scan_digits_prefix [] stale (d :: ds') [] 0 (length (d :: ds')) Hds
                  ltac:(lia) I) as Sc.
    rewrite app_nil_r in Sc. cbn [app length Nat.add] in Sc.
    change (Z.of_nat 0) with 0 in Sc.
    rewrite Nat2Z.id. cbn [length]. rewrite Sc.
    rewrite fold16_decimal by (exact Hds || lia).
    unfold quarters. rewrite typed_len. cbn [length].
    destruct (Z.ltb_spec (Z.of_nat (S (length ds'))) (Z.of_nat (S (length ds'))));
      [lia|].
    cbn [andb]. rewrite Z.eqb_refl. cbn [negb].
    rewrite int16_small by lia. f_equal. lia.
  - intros frac q k Hin Hb.
    assert (Hq0 : 0 <= q /\ exists tl, frac = ch "." :: tl).
    { unfold fractions in Hin. cbn [In] in Hin.
      destruct Hin as [H|[H|[H|[H|[]]]]]; injection H as <- <-; split; eauto; lia. }
    destruct Hq0 as [Hq0 (tl & Hfrac)].
    unfold parseNumber. rewrite Hq, typed_len.
    destruct (Z.eqb_spec (Z.of_nat (length (ds ++ frac ++ repeat (ch "0") k))) 0)
      as [E|_]; [subst frac; rewrite !length_app in E; cbn [length] in E; lia|].
    assert (H0 : (rawInput (typed (ds ++ frac ++ repeat (ch "0") k) stale) 0
                  =? ch "-") = false).
    { destruct ds as [|d ds'].
      - subst frac. cbn [app]. rewrite first_char. reflexivity.
      - cbn [app]. rewrite first_char. apply digit_not_minus.
        inversion Hds; assumption. }
    rewrite H0.
    pose proof (scan_digits_prefix (frac ++ repeat (ch "0") k) stale ds [] 0
                  (length (ds ++ frac ++ repeat (ch "0") k)) Hds
                  ltac:(rewrite length_app; lia)) as Sc.
    cbn [app length Nat.add] in Sc. change (Z.of_nat 0) with 0 in Sc.
    rewrite Nat2Z.id, Sc.
    2: { subst frac. cbn [app]. unfold is_digit. vm_compute. intros [H _].
         apply H. reflexivity. }
    rewrite fold16_decimal by (exact Hds || lia).
    rewrite (quarters_fraction ds frac q k stale (decimal ds) Hin Hn Hb).
    rewrite Z.eqb_refl. cbn [negb]. reflexivity.
Qed.

Lemma scan_digits_same (a b : Input) (fuel : nat) :
  same_line a b ->
  forall i v, 0 <= i -> scan_digits fuel a i v = scan_digits fuel b i v.
Proof.
  intros [Hl Hc]. induction fuel as [|fuel IH]; intros i v Hi; [reflexivity|].
  cbn [scan_digits]. rewrite <- Hl.
  destruct (Z.ltb_spec i (rawInputLen a)); [|reflexivity].
  rewrite <- (Hc i) by lia. cbn [andb].
  destruct ((ch "0" <=? rawInput a i) && (rawInput a i <=? ch "9")); [|reflexivity].
  apply IH. lia.
Qed.

Lemma scan_digits_bounds (a : Input) (fuel : nat) :
  forall i v, 0 <= i <= rawInputLen a ->
              i <= fst (scan_digits fuel a i v) <= rawInputLen a.
Proof.
  induction fuel as [|fuel IH]; intros i v Hi; [cbn [scan_digits fst]; lia|].
  cbn [scan_digits].
  destruct (Z.ltb_spec i (rawInputLen a)); [|cbn [andb fst]; lia].
  cbn [andb].
  destruct ((ch "0" <=? rawInput a i) && (rawInput a i <=? ch "9"));
    [|cbn [fst]; lia].
  specialize (IH (i + 1) (int16 (v * 10 + (rawInput a i - ch "0"))) ltac:(lia)). lia.
Qed.

Lemma skip_zeros_same (a b : Input) (fuel : nat) :
  same_line a b ->
  forall i, 0 <= i -> skip_zeros fuel a i = skip_zeros fuel b i.
Proof.
  intros [Hl Hc]. induction fuel as [|fuel IH]; intros i Hi; [reflexivity|].
  cbn [skip_zeros]. rewrite <- Hl.
  destruct (Z.ltb_spec i (rawInputLen a)); [|reflexivity].
  rewrite <- (Hc i) by lia. cbn [andb].
  destruct (rawInput a i =? ch "0"); [|reflexivity].
  apply IH. lia.
Qed.

Lemma skip_zeros_past (a : Input) (fuel : nat) (i : Z) :
  rawInputLen a <= i -> skip_zeros fuel a i = i.
Proof.
  intros Hi. destruct fuel as [|fuel]; [reflexivity|]. cbn [skip_zeros].
  destruct (Z.ltb_spec i (rawInputLen a)); [lia | reflexivity].
Qed.

(** On two states that hold the same line, the fraction step gives the
    same result, or on both a result that [parseNumber] rejects. *)
Lemma quarters_same (a b : Input) (i v : Z) :
  same_line a b -> 0 <= i <= rawInputLen a ->
  quarters a i v = quarters b i v
  \/ (match fst (quarters a i v) with
      | None => True | Some j => j <> rawInputLen a end
      /\ match fst (quarters b i v) with
         | None => True | Some j => j <> rawInputLen b end).
Proof.
  intros Hs Hi. pose proof Hs as [Hl Hc].
  unfold quarters. rewrite <- Hl.
  destruct (Z.ltb_spec i (rawInputLen a)) as [Hi0|Hi0]; [|left; reflexivity].
  rewrite <- (Hc i) by lia. cbn [andb].
  destruct (rawInput a i =? ch "."); [|left; reflexivity].
  destruct (Z.ltb_spec (i + 1) (rawInputLen a)) as [Hi1|Hi1].
  - rewrite <- (Hc (i + 1)) by lia. cbn [andb].
    destruct (rawInput a (i + 1) =? ch "0").
    { left. rewrite (skip_zeros_same a b _ Hs) by lia. reflexivity. }
    destruct (Z.ltb_spec (i + 1 + 1) (rawInputLen a)) as [Hi2|Hi2].
    + rewrite <- (Hc (i + 1 + 1)) by lia. cbn [andb].
      destruct (rawInput a (i + 1) =? ch "2"), (rawInput a (i + 1 + 1) =? ch "5"),
        (rawInput a (i + 1) =? ch "5"), (rawInput a (i + 1) =? ch "7");
        cbn [andb]; left; rewrite ?(skip_zeros_same a b _ Hs) by lia; reflexivity.
    + cbn [andb].
      destruct (rawInput a (i + 1) =? ch "5").
      { left. rewrite (skip_zeros_same a b _ Hs) by lia. reflexivity. }
      destruct (rawInput a (i + 1) =? ch "7"); [|left; reflexivity].
      right. cbn [andb].
      destruct (rawInput a (i + 1 + 1) =? ch "5"), (rawInput b (i + 1 + 1) =? ch "5");
        cbn [fst]; rewrite ?skip_zeros_past by lia; split; solve [exact I | lia].
  - cbn [andb]. left.
    destruct (Z.ltb_spec (i + 1 + 1) (rawInputLen a)); [lia|]. reflexivity.
Qed.

(** [parseNumber] reads [rawInput[i + 1]] without checking it against
    [rawInputLen], yet what lies in the buffer past the line never
    changes its verdict or what it prints, nor [*valOut] when it accepts. *)
Theorem parseNumber_ignores_stale (a b : Input) (valOut0 flags : Z) :
  0 <= rawInputLen a -> same_line a b ->
  let pa := parseNumber PRINT_IF_EMPTY QUARTERS a valOut0 flags in
  let pb := parseNumber PRINT_IF_EMPTY QUARTERS b valOut0 flags in
  ok pa = ok pb /\ printed pa = printed pb
  /\ (ok pa = true -> valOut pa = valOut pb).
Proof.
  intros Hlen Hs. pose proof Hs as [Hl Hc]. cbv zeta. unfold parseNumber.
  rewrite <- Hl.
  destruct (Z.eqb_spec (rawInputLen a) 0) as [E|E]; [auto|].
  rewrite <- (Hc 0) by lia.
  destruct (rawInput a 0 =? ch "-"); [auto|].
  rewrite <- (scan_digits_same a b _ Hs) by lia.
  pose proof (scan_digits_bounds a (Z.to_nat (rawInputLen a)) 0 0 ltac:(lia)) as B.
  destruct (scan_digits (Z.to_nat (rawInputLen a)) a 0 0) as [i v]. cbn [fst] in B.
  destruct (has_flag flags QUARTERS).
  - destruct (quarters_same a b i v Hs ltac:(lia)) as [<-|[Ra Rb]].
    + destruct (quarters a i v) as [[j|] v']; [|auto].
      destruct (negb (j =? rawInputLen a)); auto.
    + rewrite <- Hl in Rb.
      destruct (quarters a i v) as [[j|] v'], (quarters b i v) as [[j'|] v''];
        cbn [fst] in Ra, Rb;
        repeat match goal with
               | H : ?j <> rawInputLen a |- context [?j =? rawInputLen a] =>
                   destruct (Z.eqb_spec j (rawInputLen a)); [contradiction|]
               end;
        cbn [negb ok printed valOut]; (split; [reflexivity|]);
        (split; [reflexivity | discriminate]).
  - destruct (negb (i =? rawInputLen a)); auto.
Qed.

(** Two states in which the same line was typed hold the same line. *)
Lemma typed_same_line (cs : list Z) (s1 s2 : Z -> Z) :
  same_line (typed cs s1) (typed cs s2).
Proof.
  split; [reflexivity|]. intros k Hk. rewrite typed_len in Hk.
  unfold typed. cbn [rawInput].
  destruct (Z.leb_spec 0 k); [|lia].
  destruct (Z.ltb_spec k (Z.of_nat (length cs))); [reflexivity | lia].
Qed.

(** [parseNumber] prints nothing when it accepts, and it never rejects
    in silence, except an empty line when [PRINT_IF_EMPTY] is not set:
    every other rejection prints exactly one line. *)
Theorem parseNumber_reports (inp : Input) (valOut0 flags : Z) :
  let p := parseNumber PRINT_IF_EMPTY QUARTERS inp valOut0 flags in
  (ok p = true -> printed p = [])
  /\ (ok p = false ->
      (printed p = [] <->
       rawInputLen inp = 0 /\ has_flag flags PRINT_IF_EMPTY = false)
      /\ (printed p <> [] -> exists msg, printed p = [msg])).
Proof.
  cbv zeta. unfold parseNumber.
  destruct (Z.eqb_spec (rawInputLen inp) 0) as [E|E].
  - cbn [ok printed]. split; [discriminate|]. intros _.
    destruct (has_flag flags PRINT_IF_EMPTY).
    + split; [split; [discriminate | intros [_ F]; discriminate F]|].
      intros _. eexists. reflexivity.
    + split; [split; [intros _; split; [exact E | reflexivity] | reflexivity]|].
      intros F. contradiction.
  - assert (R : forall v, (ok (mkParse false v ["Error: Invalid number."%string]) = true ->
                           printed (mkParse false v ["Error: Invalid number."%string]) = [])
                /\ (ok (mkParse false v ["Error: Invalid number."%string]) = false ->
                    (printed (mkParse false v ["Error: Invalid number."%string]) = [] <->
                     rawInputLen inp = 0 /\ has_flag flags PRINT_IF_EMPTY = false)
                    /\ (printed (mkParse false v ["Error: Invalid number."%string]) <> [] ->
                        exists msg,
                          printed (mkParse false v ["Error: Invalid number."%string])
                          = [msg]))).
    { intros v. cbn [ok printed]. split; [discriminate|]. intros _.
      split; [split; [discriminate | intros [F _]; contradiction]|].
      intros _. eexists. reflexivity. }
    destruct (rawInput inp 0 =? ch "-").
    { cbn [ok printed]. split; [discriminate|]. intros _.
      split; [split; [discriminate | intros [F _]; contradiction]|].
      intros _. eexists. reflexivity. }
    destruct (scan_digits (Z.to_nat (rawInputLen inp)) inp 0 0) as [i v].
    destruct (if has_flag flags QUARTERS then quarters inp i v else (Some i, v))
      as [[j|] v']; [|apply R].
    destruct (negb (j =? rawInputLen inp)); [apply R|].
    cbn [ok printed]. split; [reflexivity | discriminate].
Qed.

Section WordProperties.

Variable tolower : Z -> Z.

Lemma parseWord_from_spec (stale : Z -> Z) (word : list Z) :
  forall pre cs,
    parseWord_from tolower (typed (pre ++ cs) stale) word (Z.of_nat (length pre)) = true
    <-> Forall2 (fun c d => tolower c = tolower d) word cs.
Proof.
  induction word as [|c word IH]; intros pre cs; cbn [parseWord_from].
  - rewrite typed_len, length_app. split.
    + intros H. apply Z.eqb_eq in H.
      destruct cs as [|d cs]; [constructor | cbn [length] in H; lia].
    + intros H. inversion H. cbn [length]. apply Z.eqb_eq. lia.
  - rewrite typed_len, length_app.
    destruct cs as [|d cs].
    + cbn [length].
      destruct (Z.leb_spec (Z.of_nat (length pre + 0)) (Z.of_nat (length pre))) as [_|L];
        [|lia].
      split; [discriminate | intros F; inversion F].
    + cbn [length].
      destruct (Z.leb_spec (Z.of_nat (length pre + S (length cs)))
                  (Z.of_nat (length pre))) as [L|_]; [lia|].
      rewrite typed_at_head.
      replace (Z.of_nat (length pre) + 1) with (Z.of_nat (length (pre ++ [d])))
        by (rewrite length_app; cbn [length]; lia).
      replace (pre ++ d :: cs) with ((pre ++ [d]) ++ cs)
        by (rewrite <- app_assoc; reflexivity).
      destruct (Z.eqb_spec (tolower c) (tolower d)) as [E|E]; cbn [negb].
      * rewrite IH. split; [intros F; constructor; assumption|].
        intros F. inversion F; assumption.
      * split; [discriminate|]. intros F. inversion F. contradiction.
Qed.

(** [parseWord] accepts exactly when the typed line has the length of the
    word and agrees with it character by character up to case; what the
    buffer holds past the line plays no part. *)
Theorem parseWord_accepts_iff (cs word : list Z) (stale : Z -> Z) :
  parseWord tolower (typed cs stale) word = true
  <-> Forall2 (fun c d => tolower c = tolower d) word cs.
Proof.
  unfold parseWord. exact (parseWord_from_spec stale word [] cs).
Qed.

End WordProperties.

End CommandLineProperties.

(** * The further properties at concrete inputs *)

Lemma readByte_after_start_witness :
  (2 < Z.to_nat (timeout_count uno))%nat
  /\ (forall k, (k < 2)%nat ->
        line (world_with late_start_line) (k + now (world_with late_start_line)) = LOW)
  /\ line (world_with late_start_line) (2 + now (world_with late_start_line)) = HIGH
  /\ fst (readByte uno servo_on_pin_2 (world_with late_start_line)) = 255
  /\ now (snd (readByte uno servo_on_pin_2 (world_with late_start_line))) = 12%nat.
Proof.
  assert (H0 : (2 < Z.to_nat (timeout_count uno))%nat)
    by (apply Nat.ltb_lt; vm_compute; reflexivity).
  assert (H1 : forall k, (k < 2)%nat ->
                line (world_with late_start_line)
                  (k + now (world_with late_start_line)) = LOW)
    by (intros [|[|k]] Hk; [reflexivity | reflexivity | lia]).
  assert (H2 : line (world_with late_start_line)
                 (2 + now (world_with late_start_line)) = HIGH) by reflexivity.
  split; [exact H0|]. split; [exact H1|]. split; [exact H2|].
  destruct (readByte_after_start uno servo_on_pin_2 (world_with late_start_line) 2
              H0 H1 H2) as (Hv & _ & Hn).
  split; [exact Hv | exact Hn].
Defined.

Lemma readByte_no_servo_iff_witness :
  0 < timeout_count uno_1MHz
  /\ fst (readByte uno_1MHz servo_on_pin_2 (world_with (fun _ => LOW)))
     = HITECD_ERR_NO_SERVO
  /\ now (snd (readByte uno_1MHz servo_on_pin_2 (world_with (fun _ => LOW)))) = 266%nat.
Proof.
  assert (H0 : 0 < timeout_count uno_1MHz) by reflexivity.
  split; [exact H0|].
  destruct (readByte_no_servo_iff uno_1MHz servo_on_pin_2 (world_with (fun _ => LOW)) H0)
    as [[_ Hall] Hn].
  assert (E : fst (readByte uno_1MHz servo_on_pin_2 (world_with (fun _ => LOW)))
              = HITECD_ERR_NO_SERVO) by (apply Hall; intros k _; reflexivity).
  split; [exact E | exact (Hn E)].
Defined.

Lemma transport_round_trip_witness :
  valid_mask servo_on_pin_2 /\ 0 <= 0xA5 < 256 /\ 0 < timeout_count uno
  /\ fst (readByte uno servo_on_pin_2 (world_with (loopback_line 0xA5))) = 0xA5
  /\ now (snd (readByte uno servo_on_pin_2 (world_with (loopback_line 0xA5)))) = 10%nat.
Proof.
  assert (Hm : valid_mask servo_on_pin_2) by (vm_compute; split; reflexivity).
  assert (Hv : 0 <= 0xA5 < 256) by lia.
  assert (Ht : 0 < timeout_count uno) by reflexivity.
  split; [exact Hm|]. split; [exact Hv|]. split; [exact Ht|].
  apply (transport_round_trip uno servo_on_pin_2 servo_on_pin_2 0xA5
           (world_with (fun _ => LOW)) (world_with (loopback_line 0xA5)) Hm Hv Ht).
  intros k _. cbn [world_with now line]. rewrite Nat.add_0_r. reflexivity.
Defined.

Lemma writeReg_port_effect_witness :
  0 <= regs (world_with (fun _ => LOW)) (pinOutputRegister servo_on_pin_2) < 256
  /\ (let w := world_with (fun _ => LOW) in
      let w' := snd (writeReg servo_on_pin_2 0x0A 0x1234 w) in
      (forall a, a <> pinOutputRegister servo_on_pin_2 -> regs w' a = regs w a)
      /\ regs w' (pinOutputRegister servo_on_pin_2)
         = Z.land (regs w (pinOutputRegister servo_on_pin_2))
             (Z.lnot (pinBitMask servo_on_pin_2))
      /\ level_of (pinBitMask servo_on_pin_2)
           (regs w' (pinOutputRegister servo_on_pin_2)) = LOW
      /\ line w' = line w /\ now w' = now w).
Proof.
  assert (H : 0 <= regs (world_with (fun _ => LOW)) (pinOutputRegister servo_on_pin_2)
              < 256) by (cbn [world_with regs]; lia).
  split; [exact H|].
  exact (writeReg_port_effect servo_on_pin_2 0x0A 0x1234 (world_with (fun _ => LOW)) H).
Defined.

Lemma readReg_sends_request_witness :
  valid_mask servo_on_pin_2 /\ 0 <= 0xB2 < 256
  /\ sent_bytes servo_on_pin_2 (world_with d485_line)
       (snd (readReg uno servo_on_pin_2 0xB2 0 (world_with d485_line)))
     = Some [0x96; 0x00; 0xB2; 0x00; 0xB2].
Proof.
  assert (Hm : valid_mask servo_on_pin_2) by (vm_compute; split; reflexivity).
  assert (Hr : 0 <= 0xB2 < 256) by lia.
  split; [exact Hm|]. split; [exact Hr|].
  exact (readReg_sends_request uno servo_on_pin_2 0xB2 0 (world_with d485_line) Hm Hr).
Defined.

Lemma parseNumber_plain_witness :
  CommandLine.has_flag 1 2 = false
  /\ (let p := CommandLine.parseNumber 1 2
                 (CommandLine.typed (chars "1500") (fun _ => 0)) 7 1 in
      (CommandLine.ok p = true <->
       chars "1500" <> [] /\ Forall CommandLine.is_digit (chars "1500"))
      /\ (CommandLine.ok p = true ->
          CommandLine.printed p = []
          /\ (CommandLine.decimal (chars "1500") <= 32767 ->
              CommandLine.valOut p = CommandLine.decimal (chars "1500")))).
Proof.
  assert (H : CommandLine.has_flag 1 2 = false) by reflexivity.
  split; [exact H|].
  exact (parseNumber_plain 1 2 (chars "1500") (fun _ => 0) 7 1 H).
Defined.

Lemma parseNumber_quarters_witness :
  CommandLine.has_flag 2 2 = true
  /\ Forall CommandLine.is_digit (chars "1500")
  /\ CommandLine.parseNumber 1 2
       (CommandLine.typed (chars "1500" ++ chars ".75" ++ repeat (CommandLine.ch "0") 2)
          (fun _ => 0)) 7 2
     = CommandLine.mkParse true 6003 [].
Proof.
  assert (H : CommandLine.has_flag 2 2 = true) by reflexivity.
  assert (D : Forall CommandLine.is_digit (chars "1500"))
    by (repeat (apply Forall_cons; [unfold CommandLine.is_digit; cbn; lia|]);
        apply Forall_nil).
  split; [exact H|]. split; [exact D|].
  apply (proj2 (parseNumber_quarters 1 2 (chars "1500") (fun _ => 0) 7 2 H D)
           (chars ".75") 3 2%nat).
  - right. right. right. left. reflexivity.
  - vm_compute. discriminate.
Defined.

Lemma parseNumber_ignores_stale_witness :
  let a := CommandLine.typed (chars "1.7") (fun _ => CommandLine.ch "5") in
  let b := CommandLine.typed (chars "1.7") (fun _ => 0) in
  0 <= CommandLine.rawInputLen a
  /\ CommandLine.same_line a b
  /\ CommandLine.rawInput a 3 <> CommandLine.rawInput b 3
  /\ CommandLine.ok (CommandLine.parseNumber 1 2 a 0 2)
     = CommandLine.ok (CommandLine.parseNumber 1 2 b 0 2)
  /\ CommandLine.printed (CommandLine.parseNumber 1 2 a 0 2)
     = CommandLine.printed (CommandLine.parseNumber 1 2 b 0 2).
Proof.
  cbv zeta.
  assert (H0 : 0 <= CommandLine.rawInputLen
                      (CommandLine.typed (chars "1.7") (fun _ => CommandLine.ch "5")))
    by (vm_compute; discriminate).
  assert (Hs : CommandLine.same_line
                 (CommandLine.typed (chars "1.7") (fun _ => CommandLine.ch "5"))
                 (CommandLine.typed (chars "1.7") (fun _ => 0)))
    by apply typed_same_line.
  split; [exact H0|]. split; [exact Hs|].
  split; [vm_compute; discriminate|].
  destruct (parseNumber_ignores_stale 1 2 _ _ 0 2 H0 Hs) as (Ho & Hp & _).
  split; [exact Ho | exact Hp].
Defined.
